(** * A shallow embedding of the layer stack of [si/supervised/nn.py]

    The development follows the source file top-down: the numeric carrier,
    the fragment of numpy the layers use, then [Dense], [Activation],
    [Flatten], [Conv2D], [MaxPooling2D] and the [NN] orchestrator, and
    finally the properties of each of them.

    Conventions.
    - An [ndarray] is a shape together with its elements in logical
      row-major (C) order, which is what numpy's [reshape], [ravel] and
      indexing observe whatever the strides of the underlying buffer are.
    - The element type is any type carrying the arithmetic the layers
      need ([Scalar]); no algebraic law is assumed of it.  The rationals
      are used to run the model on concrete inputs.
    - A Python method that mutates [self] and may raise is a function
      returning the new object together with [Ok v] or [Raise e]: the
      mutations made before the exception are kept, as in Python.
    - Progress printing ([print]) has no effect on the state and is left
      out. *)

From Stdlib Require Import List ZArith QArith Lia Bool Arith PeanoNat.
From Stdlib Require Import Permutation.
From Stdlib Require String Ascii SpecFloat.
Import ListNotations.
Close Scope Q_scope.
Open Scope nat_scope.

Set Implicit Arguments.

(** ** Exceptions and results *)

(** Exceptions raised by numpy, by the layers and by plain Python. *)
Inductive py_exn : Type :=
| ValueError_shapes_mismatch (got expected : list nat) (* Dense.setWeights *)
| Exception_invalid_output_dimension                   (* Pooling2D.forward *)
| ZeroDivisionError
| IndexError
| AttributeError          (* a cache attribute read before it was written *)
| UnpackError             (* tuple unpacking of a shape of the wrong rank *)
| NumpyError              (* ValueError raised inside numpy *)
| CollaboratorError       (* raised by a loss or activation function *)
| Unmodelled              (* operand ranks outside the modelled fragment *)
| OverflowError           (* int() of an infinite float, float() of a huge int *)
| ValueError_nan.         (* int() of a NaN *)

(** Exceptions a caller of [NN] can observe. *)
Inductive exn : Type :=
| AssertionError_not_fitted    (* "Model must be fitted before prediction" *)
| Exception_batches_superior   (* "Number of batchs superior to length of dataset" *)
| Py (e : py_exn).

Inductive result (E T : Type) : Type :=
| Ok (t : T)
| Raise (e : E).
Arguments Ok {E T} t.
Arguments Raise {E T} e.

Definition bind {E T U : Type} (r : result E T) (k : T -> result E U) : result E U :=
  match r with
  | Ok t => k t
  | Raise e => Raise e
  end.

Notation "x <- r ;; k" := (bind r (fun x => k))
  (at level 61, r at next level, right associativity).

Definition lift_py {T : Type} (r : result py_exn T) : result exn T :=
  match r with
  | Ok t => Ok t
  | Raise e => Raise (Py e)
  end.

Definition is_ok {E T : Type} (r : result E T) : bool :=
  match r with Ok _ => true | Raise _ => false end.

(** ** The numeric carrier *)

Class Scalar (A : Type) : Type := {
  szero : A;
  shalf : A;
  sadd : A -> A -> A;
  ssub : A -> A -> A;
  smul : A -> A -> A;
  sdiv : A -> A -> A;
  sof_nat : nat -> A;
  sltb : A -> A -> bool
}.

#[global] Instance Scalar_Q : Scalar Q := {
  szero := 0%Q;
  shalf := (1 # 2)%Q;
  sadd x y := Qred (x + y)%Q;
  ssub x y := Qred (x - y)%Q;
  smul x y := Qred (x * y)%Q;
  sdiv x y := Qred (x / y)%Q;
  sof_nat n := inject_Z (Z.of_nat n);
  sltb x y := negb (Qle_bool y x)
}.

(** ** Shapes and index arithmetic *)

Definition size_of (sh : list nat) : nat := fold_right Nat.mul 1 sh.

(** The multi-index of flat position [k] in an array of shape [sh]. *)
Fixpoint unravel (sh : list nat) (k : nat) : list nat :=
  match sh with
  | [] => []
  | _ :: rest => k / size_of rest :: unravel rest (k mod size_of rest)
  end.

(** The flat position of a multi-index. *)
Fixpoint ravel (sh idx : list nat) : nat :=
  match sh, idx with
  | _ :: rest, i :: idx' => i * size_of rest + ravel rest idx'
  | _, _ => 0
  end.

Fixpoint index_of (x : nat) (l : list nat) : nat :=
  match l with
  | [] => 0
  | y :: l' => if x =? y then 0 else S (index_of x l')
  end.

Definition is_permutation (axes : list nat) (rank : nat) : bool :=
  (length axes =? rank) &&
  forallb (fun ax => existsb (Nat.eqb ax) axes) (seq 0 rank).

Fixpoint shape_eqb (s t : list nat) : bool :=
  match s, t with
  | [], [] => true
  | x :: s', y :: t' => (x =? y) && shape_eqb s' t'
  | _, _ => false
  end.

(** numpy's broadcasting rule, on the shapes read from the last axis. *)
Fixpoint broadcast_rev (ra rb : list nat) : option (list nat) :=
  match ra, rb with
  | [], _ => Some rb
  | _, [] => Some ra
  | x :: ra', y :: rb' =>
      match broadcast_rev ra' rb' with
      | None => None
      | Some r =>
          if x =? y then Some (x :: r)
          else if x =? 1 then Some (y :: r)
          else if y =? 1 then Some (x :: r)
          else None
      end
  end.

Definition broadcast_shapes (sa sb : list nat) : option (list nat) :=
  option_map (@rev nat) (broadcast_rev (rev sa) (rev sb)).

(** The index at which an operand of shape [sh] is read when the result
    is read at [idx]: trailing axes are aligned, an axis of extent 1 is
    read at 0. *)
Definition bidx (sh idx : list nat) : list nat :=
  map (fun di => if fst di =? 1 then 0 else snd di)
      (combine sh (skipn (length idx - length sh) idx)).

(** ** The numpy fragment *)

Section Numpy.
Context {A : Type} `{Scalar A}.

Record ndarray : Type := NDArray { shape : list nat; data : list A }.

Definition item (a : ndarray) (k : nat) : A := nth k (data a) szero.

Definition tabulate (sh : list nat) (f : nat -> A) : ndarray :=
  NDArray sh (map f (seq 0 (size_of sh))).

(** [np.zeros(shape)] and [np.zeros_like(a)]. *)
Definition np_zeros (sh : list nat) : ndarray := tabulate sh (fun _ => szero).
Definition np_zeros_like (a : ndarray) : ndarray := np_zeros (shape a).

Definition sum_upto (n : nat) (f : nat -> A) : A :=
  fold_left (fun acc k => sadd acc (f k)) (seq 0 n) szero.

(** Element [i, j] of a 2-D array. *)
Definition at2 (a : ndarray) (i j : nat) : A :=
  item a (i * nth 1 (shape a) 0 + j).

Definition mk2 (r c : nat) (f : nat -> nat -> A) : ndarray :=
  tabulate [r; c] (fun k => f (k / c) (k mod c)).

(** [a.transpose(axes)] once [axes] is known to be a permutation. *)
Definition transpose_axes (axes : list nat) (a : ndarray) : ndarray :=
  let sh := shape a in
  let nsh := map (fun ax => nth ax sh 0) axes in
  tabulate nsh (fun k =>
    let j := unravel nsh k in
    item a (ravel sh (map (fun ax => nth (index_of ax axes) j 0)
                          (seq 0 (length sh))))).

Definition transpose (axes : list nat) (a : ndarray) : result py_exn ndarray :=
  if is_permutation axes (length (shape a))
  then Ok (transpose_axes axes a)
  else Raise NumpyError.

(** [a.T]: all axes reversed. *)
Definition np_T (a : ndarray) : ndarray :=
  transpose_axes (rev (seq 0 (length (shape a)))) a.

(** [a.reshape(dims)], where one entry of [dims] may be [-1]. *)
Definition reshape (a : ndarray) (dims : list Z) : result py_exn ndarray :=
  let total := size_of (shape a) in
  if existsb (fun d => (d <? -1)%Z) dims then Raise NumpyError
  else
    match length (filter (fun d => (d =? -1)%Z) dims) with
    | 0 =>
        let nsh := map Z.to_nat dims in
        if size_of nsh =? total then Ok (NDArray nsh (data a))
        else Raise NumpyError
    | 1 =>
        let known :=
          size_of (map Z.to_nat (filter (fun d => negb (d =? -1)%Z) dims)) in
        if (known =? 0) || negb (total mod known =? 0) then Raise NumpyError
        else Ok (NDArray
                   (map (fun d => if (d =? -1)%Z then total / known
                                  else Z.to_nat d) dims)
                   (data a))
    | _ => Raise NumpyError
    end.

Definition dims_of (sh : list nat) : list Z := map Z.of_nat sh.

(** [a.ravel()]. *)
Definition np_ravel (a : ndarray) : ndarray :=
  NDArray [size_of (shape a)] (data a).

(** [np.dot(a, b)] and [a @ b] on matrices. *)
Definition np_dot (a b : ndarray) : result py_exn ndarray :=
  match shape a, shape b with
  | [n; k], [k'; m] =>
      if k =? k'
      then Ok (mk2 n m (fun i j =>
                 sum_upto k (fun l => smul (at2 a i l) (at2 b l j))))
      else Raise NumpyError
  | _, _ => Raise Unmodelled
  end.

(** [np.sum(a, axis=0)]. *)
Definition np_sum_axis0 (a : ndarray) : result py_exn ndarray :=
  match shape a with
  | [] => Raise NumpyError
  | n :: rest =>
      Ok (tabulate rest (fun k =>
            sum_upto n (fun i => item a (i * size_of rest + k))))
  end.

(** [np.sum(a, axis=(0, 1, 2))] on a 4-D array. *)
Definition np_sum_axes012 (a : ndarray) : result py_exn ndarray :=
  match shape a with
  | [n; h; w; c] =>
      Ok (tabulate [c] (fun k =>
            sum_upto (n * h * w) (fun i => item a (i * c + k))))
  | _ => Raise Unmodelled
  end.

(** [x * a] for a Python scalar [x]. *)
Definition np_scale (x : A) (a : ndarray) : ndarray :=
  NDArray (shape a) (map (smul x) (data a)).

(** An elementwise function applied to every element. *)
Definition np_map (f : A -> A) (a : ndarray) : ndarray :=
  NDArray (shape a) (map f (data a)).

Definition broadcast2 (op : A -> A -> A) (rsh : list nat) (a b : ndarray)
  : ndarray :=
  tabulate rsh (fun k =>
    let idx := unravel rsh k in
    op (item a (ravel (shape a) (bidx (shape a) idx)))
       (item b (ravel (shape b) (bidx (shape b) idx)))).

(** [a op b] with broadcasting. *)
Definition np_binop (op : A -> A -> A) (a b : ndarray) : result py_exn ndarray :=
  match broadcast_shapes (shape a) (shape b) with
  | Some rsh => Ok (broadcast2 op rsh a b)
  | None => Raise NumpyError
  end.

(** [a op= b]: the broadcast result must have the shape of [a]. *)
Definition np_inplace (op : A -> A -> A) (a b : ndarray) : result py_exn ndarray :=
  match broadcast_shapes (shape a) (shape b) with
  | Some rsh =>
      if shape_eqb rsh (shape a) then Ok (broadcast2 op rsh a b)
      else Raise NumpyError
  | None => Raise NumpyError
  end.

(** [a[lo:hi, ]]: rows [lo] to [hi - 1] of the first axis, clipped. *)
Definition slice_rows (a : ndarray) (lo hi : nat) : result py_exn ndarray :=
  match shape a with
  | [] => Raise IndexError
  | n :: rest =>
      let lo' := Nat.min lo n in
      let hi' := Nat.max lo' (Nat.min hi n) in
      Ok (NDArray ((hi' - lo') :: rest)
            (firstn ((hi' - lo') * size_of rest)
                    (skipn (lo' * size_of rest) (data a))))
  end.

End Numpy.

Arguments ndarray A : clear implicits.

(** ** The column transform ([util/im2col.py]) *)

(** How the callers pass the padding: [Conv2D.backward] and [Pooling2D]
    pass the integer, [Conv2D.forward] the 4-tuple [pad2D] returned. *)
Inductive padding_arg : Type :=
| PadInt (p : nat)
| PadTuple (pr1 pr2 pc1 pc2 : nat).

Definition pad_tuple (p : padding_arg) : nat * nat * nat * nat :=
  match p with
  | PadInt p => (p, p, p, p)
  | PadTuple pr1 pr2 pc1 pc2 => (pr1, pr2, pc1, pc2)
  end.

Module Im2col.
Section Im2col.
Context {A : Type} `{Scalar A}.

(** Element [i, j, k, l] of a 4-D array. *)
Definition at4 (a : ndarray A) (i j k l : nat) : A :=
  item a (ravel (shape a) [i; j; k; l]).

(** Modelled from the spec: [pad2D] of util/im2col.py is not under src/.
    "Pad the input spatially by padding on each side": the tensor
    (batch, height, width, channels) is surrounded by zeros on the two
    spatial axes, and the amounts (top, bottom, left, right) are returned
    with it, as [Conv2D.forward] unpacks them. *)
Definition pad2D (X : ndarray A) (pad : padding_arg) (kernel_shape : list nat)
    (stride : nat) : result py_exn (ndarray A * (nat * nat * nat * nat)) :=
  match shape X with
  | [n; h; w; c] =>
      let '(pr1, pr2, pc1, pc2) := pad_tuple pad in
      let psh := [n; h + pr1 + pr2; w + pc1 + pc2; c] in
      Ok (tabulate psh (fun k =>
            match unravel psh k with
            | [ex; r; cc; ch] =>
                if (pr1 <=? r) && (r <? pr1 + h) && (pc1 <=? cc) && (cc <? pc1 + w)
                then at4 X ex (r - pr1) (cc - pc1) ch
                else szero
            | _ => szero
            end),
          (pr1, pr2, pc1, pc2))
  | _ => Raise Unmodelled
  end.

(** The output extent of a window of extent [k] moved by [s] over [d]
    padded positions: floor((d - k) / s) + 1. *)
Definition out_extent (d k s : nat) : nat := (d - k) / s + 1.

(** The position of the padded tensor that entry [row, col] of the column
    matrix stands for: rows enumerate (channel, kernel row, kernel
    column), columns enumerate (output row, output column, sample), the
    sample varying fastest, which is the order [Conv2D.forward] undoes
    with [reshape(out_ch, out_rows, out_cols, n_ex)]. *)
Definition source (fr fc s out_cols n row col : nat) : list nat :=
  let ch := row / (fr * fc) in
  let kr := (row / fc) mod fr in
  let kc := row mod fc in
  let ex := col mod n in
  let pos := col / n in
  [ex; (pos / out_cols) * s + kr; (pos mod out_cols) * s + kc; ch].

(** Modelled from the spec: [im2col] of util/im2col.py is not under src/.
    "Transform the padded input into a 2D column matrix where each column
    is one flattened receptive field across all input channels, ordered
    to match a row-major sweep over output rows then columns, repeated
    per batch sample", with floor((in + 2*padding - k)/stride) + 1
    positions per axis.  The spec is silent on a zero stride and on a
    window larger than the padded input; the model raises there. *)
Definition im2col (X : ndarray A) (W_shape : list nat) (pad : padding_arg)
    (stride : nat) : result py_exn (ndarray A * (nat * nat * nat * nat)) :=
  match W_shape, shape X with
  | fr :: fc :: _, [n; h; w; c] =>
      r <- pad2D X pad [fr; fc] stride ;;
      let '(X_pad, (pr1, pr2, pc1, pc2)) := r in
      if (stride =? 0) || (h + pr1 + pr2 <? fr) || (w + pc1 + pc2 <? fc)
      then Raise Unmodelled
      else
        let out_rows := out_extent (h + pr1 + pr2) fr stride in
        let out_cols := out_extent (w + pc1 + pc2) fc stride in
        Ok (mk2 (fr * fc * c) (out_rows * out_cols * n) (fun row col =>
              item X_pad (ravel (shape X_pad)
                                (source fr fc stride out_cols n row col))),
            (pr1, pr2, pc1, pc2))
  | _, _ => Raise Unmodelled
  end.

Definition index_eqb (i j : list nat) : bool := shape_eqb i j.

(** Modelled from the spec: [col2im] of util/im2col.py is not under src/.
    "Scatter-add each column's gradient back to its source
    receptive-field location in a zero-initialized padded tensor
    (overlapping fields accumulate, not overwrite), then strip the
    padding to recover the original spatial extent."  Each position of
    the padded tensor starts at zero and receives, in the order of the
    column matrix, every entry whose source it is. *)
Definition col2im (X_col : ndarray A) (X_shape W_shape : list nat)
    (pad : padding_arg) (stride : nat) : result py_exn (ndarray A) :=
  match W_shape, X_shape with
  | fr :: fc :: _, [n; h; w; c] =>
      let '(pr1, pr2, pc1, pc2) := pad_tuple pad in
      if (stride =? 0) || (h + pr1 + pr2 <? fr) || (w + pc1 + pc2 <? fc)
      then Raise Unmodelled
      else
        let out_rows := out_extent (h + pr1 + pr2) fr stride in
        let out_cols := out_extent (w + pc1 + pc2) fc stride in
        let K := fr * fc * c in
        let P := out_rows * out_cols * n in
        if shape_eqb (shape X_col) [K; P] then
          let psh := [n; h + pr1 + pr2; w + pc1 + pc2; c] in
          let X_pad := tabulate psh (fun k =>
            fold_left (fun acc rc =>
                         if index_eqb (source fr fc stride out_cols n (rc / P) (rc mod P))
                                      (unravel psh k)
                         then sadd acc (item X_col rc) else acc)
                      (seq 0 (K * P)) szero) in
          Ok (tabulate [n; h; w; c] (fun k =>
                match unravel [n; h; w; c] k with
                | [ex; r; cc; ch] => at4 X_pad ex (r + pr1) (cc + pc1) ch
                | _ => szero
                end))
        else Raise NumpyError
  | _, _ => Raise Unmodelled
  end.

End Im2col.
End Im2col.

(** ** Dense *)

Module Dense.
Section Dense.
Context {A : Type} `{Scalar A}.

Record t : Type := Build {
  weights : ndarray A;
  bias : ndarray A;
  input : option (ndarray A);
  output : option (ndarray A)
}.

(** [__init__]: [rand k] is the [k]-th draw of [np.random.rand]. *)
Definition init (input_size output_size : nat) (rand : nat -> A) : t :=
  Build (tabulate [input_size; output_size] (fun k => ssub (rand k) shalf))
        (np_zeros [1; output_size])
        None None.

Definition setWeights (self : t) (weights' bias' : ndarray A)
  : t * result py_exn unit :=
  if negb (shape_eqb (shape weights') (shape (weights self)))
  then (self, Raise (ValueError_shapes_mismatch (shape weights')
                                                (shape (weights self))))
  else if negb (shape_eqb (shape bias') (shape (bias self)))
  then (self, Raise (ValueError_shapes_mismatch (shape bias')
                                                (shape (bias self))))
  else (Build weights' bias' (input self) (output self), Ok tt).

Definition forward (self : t) (input' : ndarray A)
  : t * result py_exn (ndarray A) :=
  let self1 := Build (weights self) (bias self) (Some input') (output self) in
  match (xw <- np_dot input' (weights self) ;; np_binop sadd xw (bias self)) with
  | Ok out => (Build (weights self) (bias self) (Some input') (Some out), Ok out)
  | Raise e => (self1, Raise e)
  end.

Definition backward (self : t) (output_error : ndarray A) (learning_rate : A)
  : t * result py_exn (ndarray A) :=
  match input self with
  | None => (self, Raise AttributeError)
  | Some inp =>
      match (weights_error <- np_dot (np_T inp) output_error ;;
             bias_error <- np_sum_axis0 output_error ;;
             input_error <- np_dot output_error (np_T (weights self)) ;;
             Ok (weights_error, bias_error, input_error)) with
      | Raise e => (self, Raise e)
      | Ok (weights_error, bias_error, input_error) =>
          match np_inplace ssub (weights self)
                           (np_scale learning_rate weights_error) with
          | Raise e => (self, Raise e)
          | Ok w' =>
              let self1 := Build w' (bias self) (input self) (output self) in
              match np_inplace ssub (bias self)
                               (np_scale learning_rate bias_error) with
              | Raise e => (self1, Raise e)
              | Ok b' => (Build w' b' (input self) (output self), Ok input_error)
              end
          end
      end
  end.

End Dense.
End Dense.

(** ** Activation *)

Module Activation.
Section Activation.
Context {A : Type} `{Scalar A}.

(** Modelled from the spec: the activation objects of util/activation.py
    are not under src/.  "Forward: elementwise application of the wrapped
    function"; the function exposes its value and its derivative. *)
Record t : Type := Build {
  activation : A -> A;
  prime : A -> A;
  input : option (ndarray A);
  output : option (ndarray A)
}.

Definition init (func func_prime : A -> A) : t := Build func func_prime None None.

Definition forward (self : t) (input' : ndarray A)
  : t * result py_exn (ndarray A) :=
  let out := np_map (activation self) input' in
  (Build (activation self) (prime self) (Some input') (Some out), Ok out).

Definition backward (self : t) (output_error : ndarray A) (learning_rate : A)
  : t * result py_exn (ndarray A) :=
  match input self with
  | None => (self, Raise AttributeError)
  | Some inp => (self, np_binop smul (np_map (prime self) inp) output_error)
  end.

End Activation.
End Activation.

(** ** Flatten *)

Module Flatten.
Section Flatten.
Context {A : Type} `{Scalar A}.

Record t : Type := Build { input_shape : option (list nat) }.

Definition init : t := Build None.

Definition forward (self : t) (input : ndarray A)
  : t * result py_exn (ndarray A) :=
  let self1 := Build (Some (shape input)) in
  match shape input with
  | [] => (self1, Raise IndexError)
  | n :: _ => (self1, reshape input [Z.of_nat n; (-1)%Z])
  end.

Definition backward (self : t) (erro : ndarray A) (learning_rate : A)
  : t * result py_exn (ndarray A) :=
  match input_shape self with
  | None => (self, Raise AttributeError)
  | Some sh => (self, reshape erro (dims_of sh))
  end.

End Flatten.
End Flatten.

(** ** Conv2D *)

Module Conv2D.
Section Conv2D.
Context {A : Type} `{Scalar A}.

Record t : Type := Build {
  input_shape : list nat;
  in_ch : nat;
  out_ch : nat;
  stride : nat;
  padding : nat;
  weights : ndarray A;
  bias : ndarray A;
  X_shape : option (list nat);
  X_col : option (ndarray A)
}.

Definition init (input_shape kernel_shape : list nat) (layer_depth stride padding : nat)
    (rand : nat -> A) : result py_exn t :=
  match input_shape, kernel_shape with
  | _ :: _ :: in_ch :: _, k0 :: k1 :: _ =>
      Ok (Build input_shape in_ch layer_depth stride padding
                (tabulate [k0; k1; in_ch; layer_depth]
                          (fun k => ssub (rand k) shalf))
                (np_zeros [layer_depth; 1])
                None None)
  | _, _ => Raise IndexError
  end.

Definition set_X_shape (self : t) (v : list nat) : t :=
  Build (input_shape self) (in_ch self) (out_ch self) (stride self)
        (padding self) (weights self) (bias self) (Some v) (X_col self).

Definition set_X_col (self : t) (v : ndarray A) : t :=
  Build (input_shape self) (in_ch self) (out_ch self) (stride self)
        (padding self) (weights self) (bias self) (X_shape self) (Some v).

Definition set_weights (self : t) (v : ndarray A) : t :=
  Build (input_shape self) (in_ch self) (out_ch self) (stride self)
        (padding self) v (bias self) (X_shape self) (X_col self).

Definition set_bias (self : t) (v : ndarray A) : t :=
  Build (input_shape self) (in_ch self) (out_ch self) (stride self)
        (padding self) (weights self) v (X_shape self) (X_col self).

(** [int((d - k) / s + 1)]: the exact quotient [(d - k + s) / s]
    truncated toward zero. *)
Definition out_dim (d k s : nat) : Z :=
  Z.quot (Z.of_nat d - Z.of_nat k + Z.of_nat s) (Z.of_nat s).

(** The kernel matrix of [forward]:
    [self.weights.transpose(3, 2, 0, 1).reshape(out_ch, -1)]. *)
Definition W_col (weights : ndarray A) (out_ch : nat) : result py_exn (ndarray A) :=
  wt <- transpose [3; 2; 0; 1] weights ;;
  reshape wt [Z.of_nat out_ch; (-1)%Z].

(** The kernel matrix of [backward]: [self.weights.reshape(out_ch, -1)]. *)
Definition W_reshape (weights : ndarray A) (out_ch : nat) : result py_exn (ndarray A) :=
  reshape weights [Z.of_nat out_ch; (-1)%Z].

(** [erro.transpose(1, 2, 3, 0).reshape(out_ch, -1)]. *)
Definition dout_reshaped (erro : ndarray A) (out_ch : nat) : result py_exn (ndarray A) :=
  et <- transpose [1; 2; 3; 0] erro ;;
  reshape et [Z.of_nat out_ch; (-1)%Z].

(** [W_reshape.T @ dout_reshaped]. *)
Definition dX_col (weights erro : ndarray A) (out_ch : nat) : result py_exn (ndarray A) :=
  dout <- dout_reshaped erro out_ch ;;
  W <- W_reshape weights out_ch ;;
  np_dot (np_T W) dout.

Definition forward (self : t) (input : ndarray A)
  : t * result py_exn (ndarray A) :=
  let s := stride self in
  let self1 := set_X_shape self (shape input) in
  match Im2col.pad2D input (PadInt (padding self))
                     (firstn 2 (shape (weights self))) s with
  | Raise e => (self1, Raise e)
  | Ok (_, (pr1, pr2, pc1, pc2)) =>
      match shape (weights self), shape input with
      | [fr; fc; _; out_ch], [n_ex; in_rows; in_cols; _] =>
          if s =? 0 then (self1, Raise ZeroDivisionError)
          else
            let out_rows := out_dim (in_rows + pr1 + pr2) fr s in
            let out_cols := out_dim (in_cols + pc1 + pc2) fc s in
            match Im2col.im2col input (shape (weights self))
                                (PadTuple pr1 pr2 pc1 pc2) s with
            | Raise e => (self1, Raise e)
            | Ok (xcol, _) =>
                let self2 := set_X_col self1 xcol in
                (self2,
                 W <- W_col (weights self) out_ch ;;
                 prod <- np_dot W xcol ;;
                 sum <- np_binop sadd prod (bias self) ;;
                 r <- reshape sum [Z.of_nat out_ch; out_rows; out_cols;
                                   Z.of_nat n_ex] ;;
                 transpose [3; 1; 2; 0] r)
            end
      | _, _ => (self1, Raise UnpackError)
      end
  end.

Definition backward (self : t) (erro : ndarray A) (learning_rate : A)
  : t * result py_exn (ndarray A) :=
  match shape (weights self) with
  | [fr; fc; _; out_ch] =>
      let p := padding self in
      match (db0 <- np_sum_axes012 erro ;;
             db <- reshape db0 [Z.of_nat out_ch] ;;
             dout <- dout_reshaped erro out_ch ;;
             xcol <- match X_col self with
                     | Some x => Ok x
                     | None => Raise AttributeError
                     end ;;
             dW0 <- np_dot dout (np_T xcol) ;;
             dW <- reshape dW0 (dims_of (shape (weights self))) ;;
             dX <- dX_col (weights self) erro out_ch ;;
             xsh <- match X_shape self with
                    | Some x => Ok x
                    | None => Raise AttributeError
                    end ;;
             input_error <- Im2col.col2im dX xsh (shape (weights self))
                                          (PadInt p) (stride self) ;;
             Ok (db, dW, input_error)) with
      | Raise e => (self, Raise e)
      | Ok (db, dW, input_error) =>
          match np_inplace ssub (weights self) (np_scale learning_rate dW) with
          | Raise e => (self, Raise e)
          | Ok w' =>
              let self1 := set_weights self w' in
              match np_inplace ssub (bias self) (np_scale learning_rate db) with
              | Raise e => (self1, Raise e)
              | Ok b' => (set_bias self1 b', Ok input_error)
              end
          end
      end
  | _ => (self, Raise UnpackError)
  end.

End Conv2D.
End Conv2D.

(** ** Pooling2D and MaxPooling2D *)

Module MaxPooling2D.
Section MaxPooling2D.
Context {A : Type} `{Scalar A}.

Record t : Type := Build {
  size : nat;
  stride : nat;
  X_shape : option (list nat);
  X_col : option (ndarray A);
  max_idx : option (list nat)
}.

Definition init (size stride : nat) : t := Build size stride None None None.

(** [np.argmax] of column [c] of a matrix with [K] rows: the first row
    holding the largest value. *)
Definition argmax_col (a : ndarray A) (K c : nat) : nat :=
  fold_left (fun best r => if sltb (at2 a best c) (at2 a r c) then r else best)
            (seq 1 (K - 1)) 0.

(** [MaxPooling2D.pool]. *)
Definition pool (X_col : ndarray A) : result py_exn (ndarray A * list nat) :=
  match shape X_col with
  | [K; P] =>
      if K =? 0 then Raise NumpyError
      else
        let max_idx := map (argmax_col X_col K) (seq 0 P) in
        Ok (NDArray [P] (map (fun c => at2 X_col (nth c max_idx 0) c) (seq 0 P)),
            max_idx)
  | _ => Raise Unmodelled
  end.

Fixpoint set_nth (k : nat) (v : A) (l : list A) : list A :=
  match l, k with
  | [], _ => []
  | _ :: l', 0 => v :: l'
  | x :: l', S k' => x :: set_nth k' v l'
  end.

(** One assignment [dX_col[r, c] = v]. *)
Definition assign2 (acc : result py_exn (ndarray A)) (rcv : nat * nat * A)
  : result py_exn (ndarray A) :=
  a <- acc ;;
  let '(r, c, v) := rcv in
  match shape a with
  | [K; P] =>
      if (r <? K) && (c <? P)
      then Ok (NDArray (shape a) (set_nth (r * P + c) v (data a)))
      else Raise IndexError
  | _ => Raise Unmodelled
  end.

(** [MaxPooling2D.dpool]:
    [dX_col[pool_cache, range(dout_col.size)] = dout_col]; the two index
    sequences must have one length, or one of them length 1. *)
Definition dpool (dX_col dout_col : ndarray A) (pool_cache : list nat)
  : result py_exn (ndarray A) :=
  let Q := size_of (shape dout_col) in
  let P := length pool_cache in
  if (P =? Q) || (P =? 1) || (Q =? 1) then
    fold_left assign2
      (map (fun k => (nth (if P =? 1 then 0 else k) pool_cache 0,
                      (if Q =? 1 then 0 else k),
                      item dout_col (if Q =? 1 then 0 else k)))
           (seq 0 (Nat.max P Q)))
      (Ok dX_col)
  else Raise IndexError.

Definition set_X_shape (self : t) (v : list nat) : t :=
  Build (size self) (stride self) (Some v) (X_col self) (max_idx self).

Definition set_X_col (self : t) (v : ndarray A) : t :=
  Build (size self) (stride self) (X_shape self) (Some v) (max_idx self).

Definition set_max_idx (self : t) (v : list nat) : t :=
  Build (size self) (stride self) (X_shape self) (X_col self) (Some v).

(** [((d - size) / stride + 1).is_integer()]. *)
Definition is_integer_extent (d size stride : nat) : bool :=
  (Z.rem (Z.of_nat d - Z.of_nat size) (Z.of_nat stride) =? 0)%Z.

(** [int((d - size) / stride + 1)] once it is known to be an integer. *)
Definition extent (d size stride : nat) : Z :=
  (Z.quot (Z.of_nat d - Z.of_nat size) (Z.of_nat stride) + 1)%Z.

(** [Pooling2D.forward]. *)
Definition forward (self : t) (input : ndarray A)
  : t * result py_exn (ndarray A) :=
  let self1 := set_X_shape self (shape input) in
  match shape input with
  | [n; h; w; d] =>
      if stride self =? 0 then (self1, Raise ZeroDivisionError)
      else if negb (is_integer_extent w (size self) (stride self))
              || negb (is_integer_extent h (size self) (stride self))
      then (self1, Raise Exception_invalid_output_dimension)
      else
        let h_out := extent h (size self) (stride self) in
        let w_out := extent w (size self) (stride self) in
        match (X_transpose <- transpose [0; 3; 1; 2] input ;;
               X_reshaped <- reshape X_transpose (dims_of [n * d; h; w; 1]) ;;
               Im2col.im2col X_reshaped [size self; size self; d; d]
                             (PadInt 0) (stride self)) with
        | Raise e => (self1, Raise e)
        | Ok (xcol, _) =>
            let self2 := set_X_col self1 xcol in
            match pool xcol with
            | Raise e => (self2, Raise e)
            | Ok (out, idx) =>
                (set_max_idx self2 idx,
                 out1 <- reshape out [Z.of_nat d; h_out; w_out; Z.of_nat n] ;;
                 transpose [3; 1; 2; 0] out1)
            end
        end
  | _ => (self1, Raise UnpackError)
  end.

(** [Pooling2D.backward]; the names [w] and [h] are bound as in the
    source, [n, w, h, d = self.X_shape]. *)
Definition backward (self : t) (erro : ndarray A) (learning_rate : A)
  : t * result py_exn (ndarray A) :=
  match X_shape self with
  | None => (self, Raise AttributeError)
  | Some [n; w; h; d] =>
      (self,
       xcol <- match X_col self with
               | Some x => Ok x
               | None => Raise AttributeError
               end ;;
       let dX_col := np_zeros_like xcol in
       et <- transpose [1; 2; 3; 0] erro ;;
       let dout_col := np_ravel et in
       idx <- match max_idx self with
              | Some i => Ok i
              | None => Raise AttributeError
              end ;;
       dX <- dpool dX_col dout_col idx ;;
       dX <- Im2col.col2im dX [n * d; h; w; 1] [size self; size self; d; d]
                           (PadInt 0) (stride self) ;;
       reshape dX (dims_of [n; w; h; d]))
  | Some _ => (self, Raise UnpackError)
  end.

End MaxPooling2D.
End MaxPooling2D.

(** ** The layer interface *)

Section Layer.
Context {A : Type} `{Scalar A}.

(** The concrete subclasses of [Layer]. *)
Inductive layer : Type :=
| LDense (l : @Dense.t A)
| LActivation (l : @Activation.t A)
| LFlatten (l : Flatten.t)
| LConv2D (l : @Conv2D.t A)
| LMaxPooling2D (l : @MaxPooling2D.t A).

Definition with_layer {T : Type} (inj : T -> layer)
    (r : T * result py_exn (ndarray A)) : layer * result py_exn (ndarray A) :=
  (inj (fst r), snd r).

Definition forward (l : layer) (input : ndarray A)
  : layer * result py_exn (ndarray A) :=
  match l with
  | LDense d => with_layer LDense (Dense.forward d input)
  | LActivation a => with_layer LActivation (Activation.forward a input)
  | LFlatten f => with_layer LFlatten (Flatten.forward f input)
  | LConv2D c => with_layer LConv2D (Conv2D.forward c input)
  | LMaxPooling2D p => with_layer LMaxPooling2D (MaxPooling2D.forward p input)
  end.

Definition backward (l : layer) (erro : ndarray A) (learning_rate : A)
  : layer * result py_exn (ndarray A) :=
  match l with
  | LDense d => with_layer LDense (Dense.backward d erro learning_rate)
  | LActivation a => with_layer LActivation (Activation.backward a erro learning_rate)
  | LFlatten f => with_layer LFlatten (Flatten.backward f erro learning_rate)
  | LConv2D c => with_layer LConv2D (Conv2D.backward c erro learning_rate)
  | LMaxPooling2D p => with_layer LMaxPooling2D (MaxPooling2D.backward p erro learning_rate)
  end.

(** [for layer in self.layers: output = layer.forward(output)]. *)
Fixpoint forward_sweep (ls : list layer) (output : ndarray A)
  : list layer * result py_exn (ndarray A) :=
  match ls with
  | [] => ([], Ok output)
  | l :: rest =>
      match forward l output with
      | (l', Raise e) => (l' :: rest, Raise e)
      | (l', Ok out) =>
          let (rest', r) := forward_sweep rest out in (l' :: rest', r)
      end
  end.

(** [for layer in reversed(self.layers): error = layer.backward(error, lr)]. *)
Fixpoint backward_sweep (ls : list layer) (error : ndarray A) (lr : A)
  : list layer * result py_exn (ndarray A) :=
  match ls with
  | [] => ([], Ok error)
  | l :: rest =>
      match backward_sweep rest error lr with
      | (rest', Raise e) => (l :: rest', Raise e)
      | (rest', Ok err) =>
          let (l', r) := backward l err lr in (l' :: rest', r)
      end
  end.

End Layer.

Arguments layer A : clear implicits.

(** ** The network orchestrator *)

Module NN.
Section NN.
Context {A : Type} `{Scalar A}.

(** Modelled from the spec: the dataset container (data/dataset.py) is not
    under src/.  It "exposes a feature tensor and a target tensor, a
    paired-extraction operation (features, targets)", and the network
    only reads it. *)
Record Dataset : Type := mkDataset { X : ndarray A; Y : ndarray A }.

Definition getXy (d : Dataset) : ndarray A * ndarray A := (X d, Y d).

Definition loss_fn : Type := ndarray A -> ndarray A -> result py_exn A.
Definition loss_prime_fn : Type := ndarray A -> ndarray A -> result py_exn (ndarray A).

(** [history] is the dict of the source in insertion order; it is empty
    until the first training call. *)
Record t : Type := Build {
  epochs : nat;
  lr : A;
  verbose : bool;
  layers : list (layer A);
  loss : loss_fn;
  loss_prime : loss_prime_fn;
  is_fitted : bool;
  dataset : option Dataset;
  history : list (nat * A);
  history_batch : option (ndarray A)
}.

(** [__init__]; [mse] and [mse_prime] come from util/metrics.py. *)
Definition init (epochs : nat) (lr : A) (verbose : bool)
    (mse : loss_fn) (mse_prime : loss_prime_fn) : t :=
  Build epochs lr verbose [] mse mse_prime false None [] None.

Definition useLoss (self : t) (loss' : loss_fn) (loss_prime' : loss_prime_fn) : t :=
  Build (epochs self) (lr self) (verbose self) (layers self) loss' loss_prime'
        (is_fitted self) (dataset self) (history self) (history_batch self).

Definition add (self : t) (l : layer A) : t :=
  Build (epochs self) (lr self) (verbose self) (layers self ++ [l])
        (loss self) (loss_prime self)
        (is_fitted self) (dataset self) (history self) (history_batch self).

Definition set_layers (self : t) (ls : list (layer A)) : t :=
  Build (epochs self) (lr self) (verbose self) ls (loss self) (loss_prime self)
        (is_fitted self) (dataset self) (history self) (history_batch self).

Definition set_history (self : t) (h : list (nat * A)) : t :=
  Build (epochs self) (lr self) (verbose self) (layers self) (loss self)
        (loss_prime self) (is_fitted self) (dataset self) h (history_batch self).

Definition set_history_batch (self : t) (hb : ndarray A) : t :=
  Build (epochs self) (lr self) (verbose self) (layers self) (loss self)
        (loss_prime self) (is_fitted self) (dataset self) (history self) (Some hb).

Definition set_dataset (self : t) (d : Dataset) : t :=
  Build (epochs self) (lr self) (verbose self) (layers self) (loss self)
        (loss_prime self) (is_fitted self) (Some d) (history self)
        (history_batch self).

Definition set_is_fitted (self : t) : t :=
  Build (epochs self) (lr self) (verbose self) (layers self) (loss self)
        (loss_prime self) true (dataset self) (history self) (history_batch self).

(** One forward sweep, the loss derivative, one backward sweep and the
    loss value: the body shared by the loops of [fit] and [fit_batch].
    [y] is the target expression of the source ([y], or a slice of it),
    evaluated after the forward sweep. *)
Definition sweep (self : t) (x : ndarray A) (y : result py_exn (ndarray A))
  : t * result exn A :=
  match forward_sweep (layers self) x with
  | (ls1, Raise e) => (set_layers self ls1, Raise (Py e))
  | (ls1, Ok output) =>
      let self1 := set_layers self ls1 in
      match (yv <- y ;; loss_prime self yv output) with
      | Raise e => (self1, Raise (Py e))
      | Ok error =>
          match backward_sweep ls1 error (lr self) with
          | (ls2, Raise e) => (set_layers self1 ls2, Raise (Py e))
          | (ls2, Ok _) =>
              (set_layers self1 ls2,
               lift_py (yv <- y ;; loss self yv output))
          end
      end
  end.

(** A [for] loop whose body may raise: the first exception ends it. *)
Fixpoint for_each {S I : Type} (body : S -> I -> S * result exn unit)
    (s : S) (range : list I) : S * result exn unit :=
  match range with
  | [] => (s, Ok tt)
  | i :: rest =>
      match body s i with
      | (s', Raise e) => (s', Raise e)
      | (s', Ok _) => for_each body s' rest
      end
  end.

Definition fit_epoch (x y : ndarray A) (self : t) (epoch : nat)
  : t * result exn unit :=
  match sweep self x (Ok y) with
  | (self1, Raise e) => (self1, Raise e)
  | (self1, Ok err) =>
      (set_history self1 (history self1 ++ [(epoch, err)]), Ok tt)
  end.

Definition fit (self : t) (d : Dataset) : t * result exn unit :=
  let self0 := set_dataset self d in
  let (x, y) := getXy d in
  let self1 := set_history self0 [] in
  match for_each (fit_epoch x y) self1 (seq 0 (epochs self)) with
  | (self2, Raise e) => (self2, Raise e)
  | (self2, Ok _) => (set_is_fitted self2, Ok tt)
  end.

(** [self.history_batch[0, batch] = err]. *)
Definition store_batch (hb : ndarray A) (batch : nat) (err : A)
  : result py_exn (ndarray A) :=
  match shape hb with
  | [_; width] =>
      if batch <? width
      then Ok (NDArray (shape hb) (MaxPooling2D.set_nth batch err (data hb)))
      else Raise IndexError
  | _ => Raise IndexError
  end.

(** [np.average(a)]: the sum of the elements over their number. *)
Definition np_average (a : ndarray A) : A :=
  sdiv (fold_left sadd (data a) szero) (sof_nat (size_of (shape a))).

Definition fit_batch_step (x y : ndarray A) (batchsize : nat) (self : t)
    (batch : nat) : t * result exn unit :=
  match slice_rows x (batch * batchsize) ((batch + 1) * batchsize) with
  | Raise e => (self, Raise (Py e))
  | Ok xb =>
      match sweep self xb
              (slice_rows y (batch * batchsize) ((batch + 1) * batchsize)) with
      | (self1, Raise e) => (self1, Raise e)
      | (self1, Ok err) =>
          match history_batch self1 with
          | None => (self1, Raise (Py AttributeError))
          | Some hb =>
              match store_batch hb batch err with
              | Raise e => (self1, Raise (Py e))
              | Ok hb' => (set_history_batch self1 hb', Ok tt)
              end
          end
      end
  end.

Definition fit_batch_epoch (x y : ndarray A) (batchsize n_batches : nat)
    (self : t) (epoch : nat) : t * result exn unit :=
  let self1 := set_history_batch self (np_zeros [1; batchsize]) in
  match for_each (fit_batch_step x y batchsize) self1 (seq 0 n_batches) with
  | (self2, Raise e) => (self2, Raise e)
  | (self2, Ok _) =>
      match history_batch self2 with
      | None => (self2, Raise (Py AttributeError))
      | Some hb =>
          (set_history self2 (history self2 ++ [(epoch, np_average hb)]), Ok tt)
      end
  end.

(** [int(np.ceil(n / batchsize))]. *)
Definition ceil_div (n b : nat) : nat := (n + b - 1) / b.

Definition fit_batch (self : t) (d : Dataset) (batchsize : nat)
  : t * result exn unit :=
  let (x, y) := getXy d in
  match shape x with
  | [] => (self, Raise (Py IndexError))
  | n :: _ =>
      if n <? batchsize then (self, Raise Exception_batches_superior)
      else if batchsize =? 0 then (self, Raise (Py ZeroDivisionError))
      else
        let n_batches := ceil_div n batchsize in
        let self1 := set_history (set_dataset self d) [] in
        match for_each (fit_batch_epoch x y batchsize n_batches) self1
                       (seq 0 (epochs self)) with
        | (self2, Raise e) => (self2, Raise e)
        | (self2, Ok _) => (set_is_fitted self2, Ok tt)
        end
  end.

Definition predict (self : t) (x : ndarray A) : t * result exn (ndarray A) :=
  if is_fitted self then
    let (ls, r) := forward_sweep (layers self) x in
    (set_layers self ls, lift_py r)
  else (self, Raise AssertionError_not_fitted).

Definition cost (self : t) (X' Y' : option (ndarray A)) : t * result exn A :=
  if is_fitted self then
    match dataset self with
    | None =>
        match X', Y' with
        | Some x, Some y =>
            match predict self x with
            | (self1, Raise e) => (self1, Raise e)
            | (self1, Ok output) => (self1, lift_py (loss self y output))
            end
        | _, _ => (self, Raise (Py AttributeError))
        end
    | Some d =>
        let x := match X' with Some x => x | None => X d end in
        let y := match Y' with Some y => y | None => Y d end in
        match predict self x with
        | (self1, Raise e) => (self1, Raise e)
        | (self1, Ok output) => (self1, lift_py (loss self y output))
        end
    end
  else (self, Raise AssertionError_not_fitted).

(** *** Calls a client can make on a network, and their traces *)

Inductive call : Type :=
| CallUseLoss (l : loss_fn) (lp : loss_prime_fn)
| CallAdd (l : layer A)
| CallFit (d : Dataset)
| CallFitBatch (d : Dataset) (batchsize : nat)
| CallPredict (x : ndarray A)
| CallCost (X' Y' : option (ndarray A)).

(** The network after the call, and whether the call returned. *)
Definition exec (self : t) (c : call) : t * bool :=
  match c with
  | CallUseLoss l lp => (useLoss self l lp, true)
  | CallAdd l => (add self l, true)
  | CallFit d => let (s, r) := fit self d in (s, is_ok r)
  | CallFitBatch d b => let (s, r) := fit_batch self d b in (s, is_ok r)
  | CallPredict x => let (s, r) := predict self x in (s, is_ok r)
  | CallCost x y => let (s, r) := cost self x y in (s, is_ok r)
  end.

Definition is_training (c : call) : bool :=
  match c with
  | CallFit _ | CallFitBatch _ _ => true
  | _ => false
  end.

(** Runs a trace; the boolean tells whether some [fit] or [fit_batch] of
    the trace has returned. *)
Fixpoint run (self : t) (trained : bool) (cs : list call) : t * bool :=
  match cs with
  | [] => (self, trained)
  | c :: rest =>
      let (s, returned) := exec self c in
      run s (trained || (is_training c && returned)) rest
  end.

End NN.
End NN.

(** ** Vocabulary of the statements *)

Section Vocabulary.
Context {A : Type} `{Scalar A}.

(** A [Dense] layer whose parameters have the shapes of sizes [(i, o)]. *)
Definition Dense_shaped (i o : nat) (self : @Dense.t A) : Prop :=
  shape (Dense.weights self) = [i; o] /\ shape (Dense.bias self) = [1; o].

End Vocabulary.

(** ** Sample layers and tensors, over the rationals *)

Module Sample.

Definition tensor (sh : list nat) (l : list Z) : ndarray Q :=
  NDArray sh (map inject_Z l).

Definition ones (sh : list nat) : ndarray Q :=
  NDArray sh (repeat 1%Q (size_of sh)).

(** A 1 x 2 kernel over two input channels, one output channel. *)
Definition conv_two_channels : @Conv2D.t Q :=
  Conv2D.Build [1; 2; 2] 2 1 1 0
               (tensor [1; 2; 2; 1] [1; 2; 3; 4]%Z) (tensor [1; 1] [0]%Z) None None.

(** One sample of one row, two columns and two channels. *)
Definition row_two_channels : ndarray Q := tensor [1; 1; 2; 2] [5; 6; 7; 8]%Z.



(** [MaxPooling2D(size=2, stride=2)]. *)
Definition pool_2x2 : @MaxPooling2D.t Q := MaxPooling2D.init 2 2.

(** A 4 x 4 single-channel image; the maxima of its 2 x 2 blocks are
    4, 8, 12 and 16, at (1,1), (1,3), (3,1) and (3,2). *)
Definition image_4x4 : ndarray Q :=
  tensor [1; 4; 4; 1] [ 1;  2;  5;  6;
                        3;  4;  7;  8;
                        9; 10; 13; 14;
                       11; 12; 16; 15]%Z.

(** A 2 x 2 image with two channels, stored (row, column, channel):
    channel 0 is [[1, 5], [2, 3]] and channel 1 is [[9, 0], [0, 0]]. *)
Definition image_2x2x2 : ndarray Q :=
  tensor [1; 2; 2; 2] [1; 9;  5; 0;
                       2; 0;  3; 0]%Z.


(** A loss that adds up the outputs, with the outputs as derivative. *)
Definition sum_loss : @NN.loss_fn Q :=
  fun _ output => Ok (fold_left sadd (data output) szero).
Definition sum_loss_prime : @NN.loss_prime_fn Q := fun _ output => Ok output.

(** A network of one epoch and no layer. *)
Definition plain_network : @NN.t Q :=
  NN.init 1 (1 # 10)%Q true sum_loss sum_loss_prime.

Definition four_samples : @NN.Dataset Q :=
  NN.mkDataset (tensor [4; 1] [2; 2; 2; 2]%Z) (tensor [4; 1] [0; 1; 1; 0]%Z).

Definition six_samples : @NN.Dataset Q :=
  NN.mkDataset (tensor [6; 1] [2; 2; 2; 2; 2; 2]%Z) (tensor [6; 1] [0; 1; 1; 0; 1; 0]%Z).

(** A [Dense(2, 1)] after a forward call on one sample. *)
Definition dense_2_1 : @Dense.t Q :=
  Dense.Build (tensor [2; 1] [1; 2]%Z) (tensor [1; 1] [0]%Z)
              (Some (tensor [1; 2] [3; 4]%Z)) None.

End Sample.

(** ** Further vocabulary *)

Section MoreVocabulary.
Context {A : Type} `{Scalar A}.

(** What a layer is built with: its class, its hyperparameters and the
    shapes of its parameters. *)
Inductive architecture : Type :=
| ArchDense (weights_shape bias_shape : list nat)
| ArchActivation (func func_prime : A -> A)
| ArchFlatten
| ArchConv2D (input_shape : list nat) (in_ch out_ch stride padding : nat)
             (weights_shape bias_shape : list nat)
| ArchMaxPooling2D (size stride : nat).

Definition architecture_of (l : layer A) : architecture :=
  match l with
  | LDense d => ArchDense (shape (Dense.weights d)) (shape (Dense.bias d))
  | LActivation a => ArchActivation (Activation.activation a) (Activation.prime a)
  | LFlatten _ => ArchFlatten
  | LConv2D c =>
      ArchConv2D (Conv2D.input_shape c) (Conv2D.in_ch c) (Conv2D.out_ch c)
                 (Conv2D.stride c) (Conv2D.padding c)
                 (shape (Conv2D.weights c)) (shape (Conv2D.bias c))
  | LMaxPooling2D p => ArchMaxPooling2D (MaxPooling2D.size p) (MaxPooling2D.stride p)
  end.

(** The learnable parameters of a layer. *)
Definition parameters (l : layer A) : list (ndarray A) :=
  match l with
  | LDense d => [Dense.weights d; Dense.bias d]
  | LConv2D c => [Conv2D.weights c; Conv2D.bias c]
  | _ => []
  end.

(** The epochs recorded in the history of a network. *)
Definition recorded_epochs (s : @NN.t A) : list nat := map fst (NN.history s).

(** The rows [lo .. hi - 1] that [fit_batch] cuts out for one batch. *)
Definition chunk_of (x : ndarray A) (batchsize batch : nat) : result py_exn (ndarray A) :=
  slice_rows x (batch * batchsize) ((batch + 1) * batchsize).

Definition data_of (r : result py_exn (ndarray A)) : list A :=
  match r with Ok a => data a | Raise _ => [] end.

Definition shape_of (r : result py_exn (ndarray A)) : list nat :=
  match r with Ok a => shape a | Raise _ => [] end.

(** The comparison behaves as a strict order of a total preorder, as
    [<] does on numbers. *)
Definition strict_weak_order (lt : A -> A -> bool) : Prop :=
  (forall a, lt a a = false) /\
  (forall a b c, lt a b = true -> lt b c = true -> lt a c = true) /\
  (forall a b c, lt a b = false -> lt b c = false -> lt a c = false).

End MoreVocabulary.

(** ** Utilities ([util/util.py]) *)

Module Util.

Module Literal.
Import Stdlib.Strings.String.
Definition letters : string := "ABCDEFGHIJKLMNOPQRSTUVWXZ".
End Literal.

(** [ALPHA]: the capital letters, Y left out. *)
Definition ALPHA : list Ascii.ascii := String.list_ascii_of_string Literal.letters.

(** [itertools.product(ALPHA, repeat=size)], each tuple joined into a
    string: the words of [size] letters, the last letter varying
    fastest. *)
Fixpoint product (size : nat) : list String.string :=
  match size with
  | 0 => [String.EmptyString]
  | S size' => flat_map (fun c => map (String.String c) (product size')) ALPHA
  end.

(** The generator [_iter_all_strings] between two [yield]s: the current
    [size] and the words of that size it has not produced yet. *)
Definition generator : Type := nat * list String.string.

Definition _iter_all_strings : generator := (1, product 1).

(** One step of the generator: the next word of the current size, or the
    first word of the next size when none is left.  [None] stands for a
    generator that would go on without producing a word, which needs an
    empty alphabet. *)
Definition next (g : generator) : option (String.string * generator) :=
  match g with
  | (size, s :: rest) => Some (s, (size, rest))
  | (size, []) =>
      match product (S size) with
      | s :: rest => Some (s, (S size, rest))
      | [] => None
      end
  end.

(** [[gen() for _ in range(n)]]: [gen] returns the next word of the one
    shared generator. *)
Fixpoint gen_list (n : nat) (g : generator) : list String.string :=
  match n with
  | 0 => []
  | S n' =>
      match next g with
      | Some (s, g') => s :: gen_list n' g'
      | None => []
      end
  end.

Definition label_gen (n : nat) : list String.string := gen_list n _iter_all_strings.

(** [a[lo:hi]] on a Python list or 1-D array, for bounds that are not
    negative. *)
Definition slice {T : Type} (l : list T) (lo hi : nat) : list T :=
  firstn (hi - lo) (skipn lo l).

(** The position a Python slice bound [k] stands for in a sequence of
    [len] elements: negative bounds count from the end. *)
Definition slice_bound (k : Z) (len : nat) : nat :=
  if (k <? 0)%Z then Z.to_nat (Z.max 0 (Z.of_nat len + k))
  else Nat.min (Z.to_nat k) len.

(** Python floats are IEEE 754 binary64 values: 53 bits of precision,
    exponents below 1024, results rounded to nearest, ties to even.
    [S754_finite s m e] stands for [(-1)^s * m * 2^e]. *)
Definition float : Type := SpecFloat.spec_float.
Definition prec : Z := 53.
Definition emax : Z := 1024.

(** The float a Python int is converted to when it meets a float in an
    arithmetic operation. *)
Definition float_of_int (n : Z) : result py_exn float :=
  match SpecFloat.binary_normalize prec emax n 0 false with
  | SpecFloat.S754_infinity _ => Raise OverflowError
  | f => Ok f
  end.

(** [x * y] on floats. *)
Definition float_mul (x y : float) : float := SpecFloat.SFmul prec emax x y.

(** [int(x)] on a float: truncation toward zero. *)
Definition py_int (x : float) : result py_exn Z :=
  match x with
  | SpecFloat.S754_zero _ => Ok 0%Z
  | SpecFloat.S754_finite s m e =>
      let magnitude := if (0 <=? e)%Z then (Z.pos m * 2 ^ e)%Z
                       else (Z.pos m / 2 ^ (- e))%Z in
      Ok (if s then (- magnitude)%Z else magnitude)
  | SpecFloat.S754_infinity _ => Raise OverflowError
  | SpecFloat.S754_nan => Raise ValueError_nan
  end.

(** [int(split * size)] for a float [split] and the int [size]. *)
Definition idx_split_of (split : float) (size : nat) : result py_exn Z :=
  f <- float_of_int (Z.of_nat size) ;;
  py_int (float_mul split f).

Section Util.
Context {A : Type} `{Scalar A}.

(** Modelled from the spec: the dataset container (data/dataset.py) is not
    under src/; it holds the feature tensor, the target tensor and the
    optional column names, and is built as [Dataset(X, Y, xnames, yname)].
    The names are kept abstract. *)
Record Dataset (Names Name : Type) : Type := mkDataset {
  X : ndarray A;
  Y : ndarray A;
  xnames : Names;
  yname : Name
}.
Arguments mkDataset {Names Name}.
Arguments X {Names Name}.
Arguments Y {Names Name}.
Arguments xnames {Names Name}.
Arguments yname {Names Name}.

(** Row [i] of an array, as the list of its elements. *)
Definition row_of (a : ndarray A) (i : nat) : list A :=
  let rs := size_of (tl (shape a)) in
  firstn rs (skipn (i * rs) (data a)).

(** [a[idx]] for an index array [idx]: the rows named by [idx], in that
    order. *)
Definition take_rows (a : ndarray A) (idx : list nat) : result py_exn (ndarray A) :=
  match shape a with
  | [] => Raise IndexError
  | n :: rest =>
      if forallb (fun i => i <? n) idx
      then Ok (NDArray (length idx :: rest) (flat_map (row_of a) idx))
      else Raise IndexError
  end.

(** [train_test_split]; [split] is a float, as its default 0.8 is, and
    [shuffle] stands for [np.random.shuffle]. *)
Definition train_test_split {Names Name : Type} (dataset : Dataset Names Name)
    (split : float) (shuffle : list nat -> list nat)
  : result py_exn (Dataset Names Name * Dataset Names Name) :=
  match shape (X dataset) with
  | [] => Raise IndexError
  | size :: _ =>
      idx_split <- idx_split_of split size ;;
      let arr := shuffle (seq 0 size) in
      let k := slice_bound idx_split (length arr) in
      xtrain <- take_rows (X dataset) (firstn k arr) ;;
      ytrain <- take_rows (Y dataset) (firstn k arr) ;;
      xtest <- take_rows (X dataset) (skipn k arr) ;;
      ytest <- take_rows (Y dataset) (skipn k arr) ;;
      Ok (mkDataset xtrain ytrain (xnames dataset) (yname dataset),
          mkDataset xtest ytest (xnames dataset) (yname dataset))
  end.

(** The column a label selects among [classes] columns: labels below zero
    count from the last column, as numpy indices do. *)
Definition wrap_index (k : Z) (classes : nat) : option nat :=
  if ((0 <=? k) && (k <? Z.of_nat classes))%Z then Some (Z.to_nat k)
  else if ((- Z.of_nat classes <=? k) && (k <? 0))%Z
       then Some (Z.to_nat (k + Z.of_nat classes))
       else None.

(** [input_shape] of [to_categorical]: a last axis of extent 1 is dropped
    when it is not the only axis. *)
Definition categorical_shape (sh : list nat) : list nat :=
  if (1 <? length sh) && (last sh 0 =? 1) then removelast sh else sh.

(** [num_classes] once defaulted: [np.max(y) + 1] when it is [None] or 0. *)
Definition resolve_classes (ys : list Z) (num_classes : option nat)
  : result py_exn Z :=
  match num_classes with
  | Some (S c) => Ok (Z.of_nat (S c))
  | _ =>
      match ys with
      | [] => Raise NumpyError
      | y0 :: rest => Ok (fold_left Z.max rest y0 + 1)%Z
      end
  end.

(** One assignment [categorical[i, y[i]] = 1]. *)
Definition set_one (classes : nat) (acc : result py_exn (list A)) (iy : nat * Z)
  : result py_exn (list A) :=
  cells <- acc ;;
  match wrap_index (snd iy) classes with
  | Some col => Ok (MaxPooling2D.set_nth (fst iy * classes + col) (sof_nat 1) cells)
  | None => Raise IndexError
  end.

(** [to_categorical(y, num_classes)] on an integer array [y]. *)
Definition to_categorical (y : ndarray Z) (num_classes : option nat)
  : result py_exn (ndarray A) :=
  let input_shape := categorical_shape (shape y) in
  let n := size_of (shape y) in
  let ys := firstn n (data y) in
  classes <- resolve_classes ys num_classes ;;
  if (classes <? 0)%Z then Raise NumpyError
  else
    let C := Z.to_nat classes in
    cells <- fold_left (set_one C) (combine (seq 0 n) ys)
                       (Ok (data (np_zeros [n; C]))) ;;
    reshape (NDArray [n; C] cells) (dims_of (input_shape ++ [C])).

(** [minibatch]: the batches the returned generator yields, in order;
    [shuffle_ix] stands for [np.random.shuffle]. *)
Definition minibatch (X : ndarray A) (batchsize : nat) (shuffle : bool)
    (shuffle_ix : list nat -> list nat) : result py_exn (list (list nat)) :=
  match shape X with
  | [] => Raise IndexError
  | N :: _ =>
      if batchsize =? 0 then Raise ZeroDivisionError
      else
        let n_batches := NN.ceil_div N batchsize in
        let ix := if shuffle then shuffle_ix (seq 0 N) else seq 0 N in
        Ok (map (fun i => slice ix (i * batchsize) ((i + 1) * batchsize))
                (seq 0 n_batches))
  end.

End Util.
End Util.

(** ** Voting ([supervised/ensemble.py]) *)

Module Ensemble.
Section Vote.
Context {V : Type} (V_eq_dec : forall x y : V, {x = y} + {x <> y}).

(** [max(iterable, key=key)]: the first element whose key is the
    largest; [None] stands for the [ValueError] on an empty iterable. *)
Definition py_max {T : Type} (key : T -> nat) (l : list T) : option T :=
  match l with
  | [] => None
  | x :: rest =>
      Some (fold_left (fun best y => if key best <? key y then y else best) rest x)
  end.

(** [majority(values)]: [max(set(values), key=values.count)]; [set_order]
    gives the order in which the set of the values is iterated. *)
Definition majority (set_order : list V -> list V) (values : list V) : option V :=
  py_max (count_occ V_eq_dec values) (set_order values).

End Vote.
End Ensemble.

(** * Properties *)

(** ** Index arithmetic and the numpy fragment *)

Lemma size_of_1 (c : nat) : size_of [c] = c.
Proof. unfold size_of; simpl; lia. Qed.

Lemma size_of_2 (r c : nat) : size_of [r; c] = r * c.
Proof. unfold size_of; simpl; lia. Qed.

Lemma index_lt (r c i j : nat) : i < r -> j < c -> i * c + j < r * c.
Proof. intros; nia. Qed.

Lemma div_row (c i j : nat) : j < c -> (i * c + j) / c = i.
Proof.
  intros Hj. rewrite Nat.div_add_l by lia.
  rewrite (Nat.div_small j c) by exact Hj. lia.
Qed.

Lemma mod_row (c i j : nat) : j < c -> (i * c + j) mod c = j.
Proof.
  intros Hj. rewrite Nat.add_comm, Nat.Div0.mod_add.
  apply Nat.mod_small; exact Hj.
Qed.

Lemma unravel_2 (r c i j : nat) : j < c -> unravel [r; c] (i * c + j) = [i; j].
Proof.
  intros Hj. unfold unravel.
  rewrite size_of_1. change (size_of []) with 1.
  rewrite div_row, mod_row by exact Hj.
  rewrite Nat.div_1_r. reflexivity.
Qed.

Lemma ravel_2 (r c i j : nat) : ravel [r; c] [i; j] = i * c + j.
Proof. unfold ravel. rewrite size_of_1. change (size_of []) with 1. lia. Qed.

Lemma read_axis (d i : nat) : i < d -> (if d =? 1 then 0 else i) = i.
Proof. intros Hi. destruct (Nat.eqb_spec d 1); lia. Qed.

Lemma bidx_2_same (r c i j : nat) : i < r -> j < c -> bidx [r; c] [i; j] = [i; j].
Proof.
  intros Hi Hj. unfold bidx; simpl.
  rewrite (read_axis Hi), (read_axis Hj). reflexivity.
Qed.

Lemma bidx_row (c i j : nat) : j < c -> bidx [c] [i; j] = [j].
Proof. intros Hj. unfold bidx; simpl. rewrite (read_axis Hj). reflexivity. Qed.

Lemma broadcast_shapes_same_2 (r c : nat) :
  broadcast_shapes [r; c] [r; c] = Some [r; c].
Proof.
  unfold broadcast_shapes; simpl. rewrite !Nat.eqb_refl. reflexivity.
Qed.

Lemma broadcast_shapes_row (c : nat) : broadcast_shapes [1; c] [c] = Some [1; c].
Proof.
  unfold broadcast_shapes; simpl. rewrite Nat.eqb_refl. reflexivity.
Qed.


Lemma shape_eqb_refl (s : list nat) : shape_eqb s s = true.
Proof. induction s as [|x s IH]; simpl; [ | rewrite Nat.eqb_refl ]; auto. Qed.

Lemma shape_eqb_eq (s u : list nat) : shape_eqb s u = true <-> s = u.
Proof.
  split; [ | intros ->; apply shape_eqb_refl ].
  revert u; induction s as [|x s IH]; destruct u as [|y u]; simpl;
    try discriminate; auto.
  intros E. apply andb_true_iff in E as [E1 E2].
  apply Nat.eqb_eq in E1. f_equal; auto.
Qed.

Lemma size_of_dims (sh : list nat) : size_of (map Z.to_nat (dims_of sh)) = size_of sh.
Proof.
  unfold dims_of. rewrite map_map.
  rewrite (map_ext _ (fun x => x)) by (intros; apply Nat2Z.id).
  rewrite map_id. reflexivity.
Qed.

Lemma dims_nonneg (sh : list nat) (bound : Z) :
  (bound < 0)%Z -> existsb (fun d => (d <? bound)%Z) (dims_of sh) = false.
Proof.
  intros Hb. induction sh as [|x sh IH]; simpl; auto.
  rewrite IH, orb_false_r. apply Z.ltb_ge. lia.
Qed.

Lemma dims_no_unknown (sh : list nat) :
  filter (fun d => (d =? -1)%Z) (dims_of sh) = [].
Proof.
  induction sh as [|x sh IH]; simpl; auto.
  destruct (Z.eqb_spec (Z.of_nat x) (-1)); [ lia | exact IH ].
Qed.

Section NumpyProperties.
Context {A : Type} `{Scalar A}.

Lemma item_tabulate (sh : list nat) (f : nat -> A) (k : nat) :
  k < size_of sh -> item (tabulate sh f) k = f k.
Proof.
  intros Hk. unfold item, tabulate; simpl.
  rewrite (nth_indep _ szero (f 0)) by (rewrite length_map, length_seq; exact Hk).
  rewrite (map_nth f), seq_nth by exact Hk. reflexivity.
Qed.

Lemma at2_mk2 (r c : nat) (f : nat -> nat -> A) (i j : nat) :
  i < r -> j < c -> at2 (mk2 r c f) i j = f i j.
Proof.
  intros Hi Hj. unfold at2, mk2. simpl.
  rewrite item_tabulate by (rewrite size_of_2; apply index_lt; assumption).
  rewrite div_row, mod_row by exact Hj. reflexivity.
Qed.

Lemma at2_tabulate (r c : nat) (f : nat -> A) (i j : nat) :
  i < r -> j < c -> at2 (tabulate [r; c] f) i j = f (i * c + j).
Proof.
  intros Hi Hj. unfold at2. simpl.
  apply item_tabulate. rewrite size_of_2. apply index_lt; assumption.
Qed.

(** On a matrix, [a.T] swaps the two indices. *)
Lemma np_T_2d (a : ndarray A) (r c : nat) :
  shape a = [r; c] -> np_T a = mk2 c r (fun i j => at2 a j i).
Proof.
  intros Hs. unfold np_T, transpose_axes, mk2, tabulate, at2. rewrite Hs.
  cbn [length seq rev app map nth index_of Nat.eqb unravel ravel].
  f_equal. apply map_ext. intros k.
  rewrite !size_of_1. change (size_of []) with 1.
  rewrite !Nat.mul_1_r, !Nat.div_1_r, !Nat.add_0_r.
  reflexivity.
Qed.

Lemma item_scale (x : A) (sh : list nat) (f : nat -> A) (k : nat) :
  k < size_of sh -> item (np_scale x (tabulate sh f)) k = smul x (f k).
Proof.
  intros Hk. unfold np_scale, tabulate, item; simpl. rewrite map_map.
  change (nth k (map (fun i => smul x (f i)) (seq 0 (size_of sh))) szero)
    with (item (tabulate sh (fun i => smul x (f i))) k).
  apply item_tabulate; exact Hk.
Qed.

Lemma fold_left_ext_in {S I : Type} (F G : S -> I -> S) (l : list I) :
  (forall x, In x l -> forall acc, F acc x = G acc x) ->
  forall acc, fold_left F l acc = fold_left G l acc.
Proof.
  induction l as [|x l IH]; intros E acc; simpl; auto.
  rewrite (E x) by (left; reflexivity).
  apply IH. intros y Hy. apply E. right; exact Hy.
Qed.

Lemma sum_upto_ext (n : nat) (f g : nat -> A) :
  (forall k, k < n -> f k = g k) -> sum_upto n f = sum_upto n g.
Proof.
  intros E. unfold sum_upto. apply fold_left_ext_in.
  intros k Hk acc. apply in_seq in Hk. rewrite E by lia. reflexivity.
Qed.

Lemma np_dot_2d (a b : ndarray A) (n k m : nat) :
  shape a = [n; k] -> shape b = [k; m] ->
  np_dot a b =
  Ok (mk2 n m (fun i j => sum_upto k (fun l => smul (at2 a i l) (at2 b l j)))).
Proof.
  intros Ha Hb. unfold np_dot. rewrite Ha, Hb, Nat.eqb_refl. reflexivity.
Qed.

Lemma at2_T (a : ndarray A) (r c i j : nat) :
  shape a = [r; c] -> i < c -> j < r -> at2 (np_T a) i j = at2 a j i.
Proof.
  intros Hs Hi Hj. rewrite (np_T_2d a Hs).
  exact (at2_mk2 (fun i j => at2 a j i) Hi Hj).
Qed.

Lemma shape_T (a : ndarray A) (r c : nat) :
  shape a = [r; c] -> shape (np_T a) = [c; r].
Proof. intros Hs. rewrite (np_T_2d a Hs). reflexivity. Qed.

Lemma at2_item (a : ndarray A) (r c i j : nat) :
  shape a = [r; c] -> at2 a i j = item a (i * c + j).
Proof. intros Hs. unfold at2. rewrite Hs. reflexivity. Qed.

(** In-place update of a matrix by a matrix of the same shape. *)
Lemma np_inplace_same_2 (op : A -> A -> A) (a b : ndarray A) (r c : nat) :
  shape a = [r; c] -> shape b = [r; c] ->
  exists a', np_inplace op a b = Ok a' /\ shape a' = [r; c] /\
    forall i j, i < r -> j < c -> at2 a' i j = op (item a (i * c + j)) (item b (i * c + j)).
Proof.
  intros Ha Hb. unfold np_inplace. rewrite Ha, Hb, broadcast_shapes_same_2.
  rewrite shape_eqb_refl. eexists; split; [ reflexivity | split; [ reflexivity | ] ].
  intros i j Hi Hj. unfold broadcast2. rewrite at2_tabulate by assumption.
  cbv zeta. rewrite Ha, Hb, (unravel_2 r i Hj), (bidx_2_same Hi Hj), ravel_2.
  reflexivity.
Qed.

(** In-place update of a one-row matrix by a vector. *)
Lemma np_inplace_row (op : A -> A -> A) (a b : ndarray A) (c : nat) :
  shape a = [1; c] -> shape b = [c] ->
  exists a', np_inplace op a b = Ok a' /\ shape a' = [1; c] /\
    forall j, j < c -> at2 a' 0 j = op (item a j) (item b j).
Proof.
  intros Ha Hb. unfold np_inplace. rewrite Ha, Hb, broadcast_shapes_row.
  rewrite shape_eqb_refl. eexists; split; [ reflexivity | split; [ reflexivity | ] ].
  intros j Hj. unfold broadcast2. rewrite at2_tabulate by (auto; lia).
  cbv zeta. rewrite Ha, Hb.
  change (0 * c + j) with j.
  replace (unravel [1; c] j) with [0; j] by (symmetry; apply (unravel_2 1 0 Hj)).
  rewrite (bidx_2_same (r := 1) (c := c)) by (auto; lia).
  rewrite (bidx_row 0 Hj), ravel_2. unfold ravel. change (size_of []) with 1.
  rewrite Nat.mul_1_r, Nat.add_0_r. reflexivity.
Qed.

(** An in-place update never changes the shape of its target. *)
Lemma np_inplace_shape (op : A -> A -> A) (a b a' : ndarray A) :
  np_inplace op a b = Ok a' -> shape a' = shape a.
Proof.
  unfold np_inplace. destruct (broadcast_shapes (shape a) (shape b)); try discriminate.
  destruct (shape_eqb l (shape a)) eqn:E; try discriminate.
  intros [= <-]. apply shape_eqb_eq in E. exact E.
Qed.

End NumpyProperties.

(** ** Dense *)

Section DenseProperties.
Context {A : Type} `{Scalar A}.

(** The result of [backward] and the parameters it leaves, entry by
    entry. *)
Lemma Dense_backward_entries
    (self : Dense.t) (I G : ndarray A) (lr : A) (n i o : nat) :
  Dense.input self = Some I ->
  shape I = [n; i] -> shape G = [n; o] ->
  shape (Dense.weights self) = [i; o] -> shape (Dense.bias self) = [1; o] ->
  exists self' input_error,
    Dense.backward self G lr = (self', Ok input_error) /\
    shape input_error = [n; i] /\
    (forall r c, r < n -> c < i ->
       at2 input_error r c =
       sum_upto o (fun j => smul (at2 G r j) (at2 (Dense.weights self) c j))) /\
    shape (Dense.weights self') = [i; o] /\
    (forall r c, r < i -> c < o ->
       at2 (Dense.weights self') r c =
       ssub (at2 (Dense.weights self) r c)
            (smul lr (sum_upto n (fun k => smul (at2 I k r) (at2 G k c))))) /\
    shape (Dense.bias self') = [1; o] /\
    (forall c, c < o ->
       at2 (Dense.bias self') 0 c =
       ssub (at2 (Dense.bias self) 0 c)
            (smul lr (sum_upto n (fun k => at2 G k c)))) /\
    Dense.input self' = Some I.
Proof.
  intros Hin HI HG HW Hb.
  unfold Dense.backward. rewrite Hin.
  rewrite (np_dot_2d (np_T I) G (shape_T I HI) HG).
  unfold np_sum_axis0. rewrite HG.
  rewrite (np_dot_2d G (np_T (Dense.weights self)) HG (shape_T _ HW)).
  cbn [bind].
  match goal with
  | |- context [np_inplace ssub (Dense.weights self) ?E] =>
      destruct (np_inplace_same_2 ssub (Dense.weights self) E HW eq_refl)
        as (w' & Ew & Sw & Vw)
  end.
  rewrite Ew.
  match goal with
  | |- context [np_inplace ssub (Dense.bias self) ?E] =>
      destruct (np_inplace_row ssub (Dense.bias self) E Hb eq_refl)
        as (b' & Eb & Sb & Vb)
  end.
  rewrite Eb.
  do 2 eexists. split; [ reflexivity | ].
  cbn [Dense.weights Dense.bias Dense.input].
  repeat split; try assumption.
  - intros r c Hr Hc. rewrite at2_mk2 by assumption.
    apply sum_upto_ext. intros j Hj.
    rewrite (at2_T (Dense.weights self) HW) by assumption. reflexivity.
  - intros r c Hr Hc. rewrite (Vw r c Hr Hc).
    rewrite <- (at2_item (Dense.weights self) r c HW).
    unfold mk2. rewrite item_scale by (rewrite size_of_2; apply index_lt; assumption).
    rewrite div_row, mod_row by assumption.
    do 2 f_equal. apply sum_upto_ext. intros k Hk.
    rewrite (at2_T I HI) by assumption. reflexivity.
  - intros c Hc. rewrite (Vb c Hc).
    rewrite (at2_item (Dense.bias self) 0 c Hb). cbn [Nat.mul Nat.add].
    rewrite item_scale by (rewrite size_of_1; assumption).
    do 2 f_equal. apply sum_upto_ext. intros k Hk.
    rewrite (at2_item G k c HG), size_of_1. reflexivity.
Qed.

(** C6.  A backward call with upstream gradient [G], after a forward call
    that cached the input [I], returns [G . weights^T] computed from the
    weights as they were before the call, and replaces the weights by
    [weights - lr * (I^T . G)] and the bias by
    [bias - lr * (column sums of G)].  The three results are given entry
    by entry. *)
Theorem Dense_backward_gradients
    (self : Dense.t) (I G : ndarray A) (lr : A) (n i o : nat) :
  Dense.input self = Some I ->
  shape I = [n; i] -> shape G = [n; o] ->
  shape (Dense.weights self) = [i; o] -> shape (Dense.bias self) = [1; o] ->
  exists self' input_error,
    Dense.backward self G lr = (self', Ok input_error) /\
    shape input_error = [n; i] /\
    (forall r c, r < n -> c < i ->
       at2 input_error r c =
       sum_upto o (fun j => smul (at2 G r j) (at2 (Dense.weights self) c j))) /\
    shape (Dense.weights self') = [i; o] /\
    (forall r c, r < i -> c < o ->
       at2 (Dense.weights self') r c =
       ssub (at2 (Dense.weights self) r c)
            (smul lr (sum_upto n (fun k => smul (at2 I k r) (at2 G k c))))) /\
    shape (Dense.bias self') = [1; o] /\
    (forall c, c < o ->
       at2 (Dense.bias self') 0 c =
       ssub (at2 (Dense.bias self) 0 c)
            (smul lr (sum_upto n (fun k => at2 G k c)))) /\
    Dense.input self' = Some I.
Proof. exact (@Dense_backward_entries self I G lr n i o). Qed.

(** C7.  [setWeights] raises exactly when one of the two new arrays has a
    shape other than the current one, and then the layer is left as it
    was; otherwise it returns and both parameters are the new arrays. *)
Theorem Dense_setWeights_checked (self : Dense.t) (w b : ndarray A) :
  match Dense.setWeights self w b with
  | (self', Ok _) =>
      shape w = shape (Dense.weights self) /\ shape b = shape (Dense.bias self) /\
      Dense.weights self' = w /\ Dense.bias self' = b
  | (self', Raise e) =>
      (shape w <> shape (Dense.weights self) \/ shape b <> shape (Dense.bias self)) /\
      self' = self /\
      e = (if shape_eqb (shape w) (shape (Dense.weights self))
           then ValueError_shapes_mismatch (shape b) (shape (Dense.bias self))
           else ValueError_shapes_mismatch (shape w) (shape (Dense.weights self)))
  end.
Proof.
  unfold Dense.setWeights.
  destruct (shape_eqb (shape w) (shape (Dense.weights self))) eqn:Ew; cbn [negb].
  - destruct (shape_eqb (shape b) (shape (Dense.bias self))) eqn:Eb; cbn [negb].
    + apply shape_eqb_eq in Ew, Eb. cbn. auto.
    + split; [ right | auto ]. intros E. apply shape_eqb_eq in E. congruence.
  - split; [ left | auto ]. intros E. apply shape_eqb_eq in E. congruence.
Qed.

Lemma Dense_forward_parameters (self : Dense.t) (x : ndarray A) :
  Dense.weights (fst (Dense.forward self x)) = Dense.weights self /\
  Dense.bias (fst (Dense.forward self x)) = Dense.bias self /\
  Dense.input (fst (Dense.forward self x)) = Some x.
Proof.
  unfold Dense.forward.
  destruct (xw <- np_dot x (Dense.weights self) ;; np_binop sadd xw (Dense.bias self));
    cbn; auto.
Qed.

Lemma Dense_backward_shapes (self : Dense.t) (g : ndarray A) (lr : A) :
  shape (Dense.weights (fst (Dense.backward self g lr))) = shape (Dense.weights self) /\
  shape (Dense.bias (fst (Dense.backward self g lr))) = shape (Dense.bias self).
Proof.
  unfold Dense.backward.
  destruct (Dense.input self) as [inp|]; [ | cbn; auto ].
  match goal with |- context [match ?r with Ok _ => _ | Raise _ => _ end] =>
    destruct r as [[[we be] ie]|e] end; [ | cbn; auto ].
  destruct (np_inplace ssub (Dense.weights self) (np_scale lr we)) as [w'|e] eqn:Ew;
    [ | cbn; auto ].
  apply np_inplace_shape in Ew.
  destruct (np_inplace ssub (Dense.bias self) (np_scale lr be)) as [b'|e] eqn:Eb;
    cbn; [ apply np_inplace_shape in Eb | ]; auto.
Qed.

(** C10.  A layer built for [(i, o)] has weights of shape [(i, o)] and a
    bias of shape [(1, o)]; a forward call followed by a backward call
    leaves both shapes as they were, whatever the two arguments are and
    whether or not the calls return; and on a batch of [n] samples the
    backward call returns: the bias update, whose gradient has shape
    [(o,)], is accepted and the bias is still [(1, o)]. *)
Theorem Dense_shapes_invariant
    (i o : nat) (self : Dense.t) (x g : ndarray A) (lr : A) :
  Dense_shaped i o self ->
  (forall rand, Dense_shaped i o (Dense.init i o rand)) /\
  Dense_shaped i o (fst (Dense.backward (fst (Dense.forward self x)) g lr)) /\
  (forall n, shape x = [n; i] -> shape g = [n; o] ->
     is_ok (snd (Dense.backward (fst (Dense.forward self x)) g lr)) = true).
Proof.
  intros [HW Hb].
  destruct (Dense_forward_parameters self x) as (Fw & Fb & Fi).
  repeat split.
  - rewrite (proj1 (Dense_backward_shapes _ g lr)), Fw. exact HW.
  - rewrite (proj2 (Dense_backward_shapes _ g lr)), Fb. exact Hb.
  - intros n Hx Hg.
    destruct (@Dense_backward_entries (fst (Dense.forward self x)) x g lr n i o)
      as (s' & ie & E & _); try assumption; try congruence.
    rewrite E. reflexivity.
Qed.

End DenseProperties.

(** ** Flatten *)

Section FlattenProperties.
Context {A : Type} `{Scalar A}.

Lemma reshape_keep_first (x : ndarray A) (n : nat) (ds : list nat) :
  shape x = n :: ds -> 0 < n ->
  reshape x [Z.of_nat n; (-1)%Z] = Ok (NDArray [n; size_of ds] (data x)).
Proof.
  intros Hs Hn.
  assert (E1 : (Z.of_nat n <? -1)%Z = false) by (apply Z.ltb_ge; lia).
  assert (E2 : (Z.of_nat n =? -1)%Z = false) by (apply Z.eqb_neq; lia).
  unfold reshape. rewrite Hs.
  cbn [existsb filter]. rewrite E1, E2.
  change ((-1 <? -1)%Z) with false. change ((-1 =? -1)%Z) with true.
  cbn [orb negb filter length map]. rewrite E2. cbn [negb filter map].
  rewrite Nat2Z.id, size_of_1.
  change (size_of (n :: ds)) with (n * size_of ds).
  destruct (Nat.eqb_spec n 0) as [->|_]; [ lia | ].
  rewrite (Nat.mul_comm n (size_of ds)), Nat.Div0.mod_mul.
  rewrite Nat.div_mul by lia. reflexivity.
Qed.

Lemma reshape_to_shape (g : ndarray A) (sh : list nat) :
  size_of (shape g) = size_of sh ->
  reshape g (dims_of sh) = Ok (NDArray sh (data g)).
Proof.
  intros Hsz. unfold reshape.
  rewrite dims_nonneg by lia. rewrite dims_no_unknown. cbn [length].
  rewrite size_of_dims, Hsz, Nat.eqb_refl.
  unfold dims_of. rewrite map_map.
  rewrite (map_ext _ (fun x => x)) by (intros; apply Nat2Z.id).
  rewrite map_id. reflexivity.
Qed.

(** C9.  On a tensor of shape [(n, d1, ..., dk)] with at least one
    sample, [forward] caches that shape and returns the same elements
    with shape [(n, d1 * ... * dk)]; [backward] then returns any gradient
    of that flattened shape, elements unchanged, with the cached shape. *)
Theorem Flatten_round_trip
    (self : Flatten.t) (x : ndarray A) (n : nat) (ds : list nat) (lr : A) :
  shape x = n :: ds -> 0 < n ->
  exists out,
    Flatten.forward self x = (Flatten.Build (Some (n :: ds)), Ok out) /\
    shape out = [n; size_of ds] /\ data out = data x /\
    forall g, shape g = [n; size_of ds] ->
      exists back,
        Flatten.backward (fst (Flatten.forward self x)) g lr
        = (Flatten.Build (Some (n :: ds)), Ok back) /\
        shape back = n :: ds /\ data back = data g.
Proof.
  intros Hs Hn. unfold Flatten.forward. rewrite Hs.
  rewrite (reshape_keep_first x Hs Hn).
  eexists; split; [ reflexivity | ]. repeat split.
  intros g Hg. unfold Flatten.backward. cbn [fst Flatten.input_shape].
  rewrite (reshape_to_shape g (n :: ds)).
  - eexists; split; [ reflexivity | split; reflexivity ].
  - rewrite Hg, size_of_2. reflexivity.
Qed.

End FlattenProperties.

(** ** The network: the fitted flag *)

Section NNFitted.
Context {A : Type} `{Scalar A}.

Lemma for_each_invariant {S I : Type} (R : S -> Prop)
    (body : S -> I -> S * result exn unit) (range : list I) :
  (forall s i, R s -> R (fst (body s i))) ->
  forall s, R s -> R (fst (NN.for_each body s range)).
Proof.
  intros Hbody. induction range as [|i rest IH]; intros s Hs; simpl; auto.
  specialize (Hbody s i Hs). destruct (body s i) as [s' [u|e]]; simpl in *; auto.
Qed.

Lemma lift_py_fitted {T : Type} (r : result py_exn T) :
  lift_py r <> Raise AssertionError_not_fitted.
Proof. destruct r; discriminate. Qed.

Lemma sweep_is_fitted (s : NN.t) (x : ndarray A) (y : result py_exn (ndarray A)) :
  NN.is_fitted (fst (NN.sweep s x y)) = NN.is_fitted s.
Proof.
  unfold NN.sweep.
  destruct (forward_sweep (NN.layers s) x) as [ls1 [out|e]]; [ | reflexivity ].
  destruct (yv <- y ;; NN.loss_prime s yv out) as [err|e]; [ | reflexivity ].
  destruct (backward_sweep ls1 err (NN.lr s)) as [ls2 [g|e]]; reflexivity.
Qed.

Lemma fit_epoch_is_fitted (x y : ndarray A) (s : NN.t) (epoch : nat) :
  NN.is_fitted (fst (NN.fit_epoch x y s epoch)) = NN.is_fitted s.
Proof.
  unfold NN.fit_epoch. pose proof (sweep_is_fitted s x (Ok y)) as E.
  destruct (NN.sweep s x (Ok y)) as [s1 [err|e]]; exact E.
Qed.

Lemma fit_batch_step_is_fitted (x y : ndarray A) (b : nat) (s : NN.t) (batch : nat) :
  NN.is_fitted (fst (NN.fit_batch_step x y b s batch)) = NN.is_fitted s.
Proof.
  unfold NN.fit_batch_step.
  destruct (slice_rows x (batch * b) ((batch + 1) * b)) as [xb|e]; [ | reflexivity ].
  pose proof (sweep_is_fitted s xb (slice_rows y (batch * b) ((batch + 1) * b))) as E.
  destruct (NN.sweep s xb _) as [s1 [err|e]]; [ | exact E ].
  destruct (NN.history_batch s1) as [hb|]; [ | exact E ].
  destruct (NN.store_batch hb batch err); exact E.
Qed.

Lemma fit_batch_epoch_is_fitted (x y : ndarray A) (b nb : nat) (s : NN.t) (epoch : nat) :
  NN.is_fitted (fst (NN.fit_batch_epoch x y b nb s epoch)) = NN.is_fitted s.
Proof.
  unfold NN.fit_batch_epoch.
  pose proof (for_each_invariant (fun s' => NN.is_fitted s' = NN.is_fitted s)
                (NN.fit_batch_step x y b) (seq 0 nb)) as E.
  specialize (E (fun s' i Hs' => eq_trans (fit_batch_step_is_fitted x y b s' i) Hs')
                (NN.set_history_batch s (np_zeros [1; b])) eq_refl).
  destruct (NN.for_each _ _ _) as [s2 [u|e]]; [ | exact E ].
  destruct (NN.history_batch s2); exact E.
Qed.

(** [fit] sets the flag when it returns and leaves it otherwise. *)
Lemma fit_is_fitted (s : NN.t) (d : NN.Dataset) :
  NN.is_fitted (fst (NN.fit s d)) = NN.is_fitted s || is_ok (snd (NN.fit s d)).
Proof.
  unfold NN.fit. destruct (NN.getXy d) as [x y].
  pose proof (for_each_invariant (fun s' => NN.is_fitted s' = NN.is_fitted s)
                (NN.fit_epoch x y) (seq 0 (NN.epochs s))) as E.
  specialize (E (fun s' i Hs' => eq_trans (fit_epoch_is_fitted x y s' i) Hs')
                (NN.set_history (NN.set_dataset s d) []) eq_refl).
  destruct (NN.for_each _ _ _) as [s2 [u|e]]; cbn [fst snd is_ok].
  - cbn. rewrite orb_true_r. reflexivity.
  - rewrite orb_false_r. exact E.
Qed.

Lemma fit_batch_is_fitted (s : NN.t) (d : NN.Dataset) (b : nat) :
  NN.is_fitted (fst (NN.fit_batch s d b))
  = NN.is_fitted s || is_ok (snd (NN.fit_batch s d b)).
Proof.
  unfold NN.fit_batch. destruct (NN.getXy d) as [x y].
  destruct (shape x) as [|n rest]; [ cbn; rewrite orb_false_r; reflexivity | ].
  destruct (n <? b); [ cbn; rewrite orb_false_r; reflexivity | ].
  destruct (b =? 0); [ cbn; rewrite orb_false_r; reflexivity | ].
  pose proof (for_each_invariant (fun s' => NN.is_fitted s' = NN.is_fitted s)
                (NN.fit_batch_epoch x y b (NN.ceil_div n b)) (seq 0 (NN.epochs s))) as E.
  specialize (E (fun s' i Hs' => eq_trans (fit_batch_epoch_is_fitted x y b _ s' i) Hs')
                (NN.set_history (NN.set_dataset s d) []) eq_refl).
  destruct (NN.for_each _ _ _) as [s2 [u|e]]; cbn [fst snd is_ok].
  - cbn. rewrite orb_true_r. reflexivity.
  - rewrite orb_false_r. exact E.
Qed.

Lemma predict_is_fitted (s : NN.t) (x : ndarray A) :
  NN.is_fitted (fst (NN.predict s x)) = NN.is_fitted s.
Proof.
  unfold NN.predict. destruct (NN.is_fitted s) eqn:E; [ | exact E ].
  destruct (forward_sweep (NN.layers s) x); exact E.
Qed.

Lemma cost_is_fitted (s : NN.t) (x y : option (ndarray A)) :
  NN.is_fitted (fst (NN.cost s x y)) = NN.is_fitted s.
Proof.
  unfold NN.cost. destruct (NN.is_fitted s) eqn:E; [ | exact E ].
  destruct (NN.dataset s) as [d|].
  - pose proof (predict_is_fitted s
                  (match x with Some x0 => x0 | None => NN.X d end)) as P.
    destruct (NN.predict s _) as [s1 [o|e]]; cbn [fst] in *; congruence.
  - destruct x as [x0|]; [ | exact E ]. destruct y as [y0|]; [ | exact E ].
    pose proof (predict_is_fitted s x0) as P.
    destruct (NN.predict s x0) as [s1 [o|e]]; cbn [fst] in *; congruence.
Qed.

(** The flag after a call: set by a training call that returned, kept
    by every other call. *)
Lemma exec_is_fitted (s : NN.t) (c : NN.call) :
  NN.is_fitted (fst (NN.exec s c))
  = NN.is_fitted s || (NN.is_training c && snd (NN.exec s c)).
Proof.
  destruct c as [l lp | l | d | d b | x | x y]; cbn [NN.exec NN.is_training andb].
  - cbn. rewrite orb_false_r. reflexivity.
  - cbn. rewrite orb_false_r. reflexivity.
  - pose proof (fit_is_fitted s d) as E.
    destruct (NN.fit s d) as [s1 r]; exact E.
  - pose proof (fit_batch_is_fitted s d b) as E.
    destruct (NN.fit_batch s d b) as [s1 r]; exact E.
  - pose proof (predict_is_fitted s x) as E.
    destruct (NN.predict s x) as [s1 r]. cbn in *. rewrite orb_false_r. exact E.
  - pose proof (cost_is_fitted s x y) as E.
    destruct (NN.cost s x y) as [s1 r]. cbn in *. rewrite orb_false_r. exact E.
Qed.

Lemma run_is_fitted (cs : list NN.call) (s : NN.t) (trained : bool) :
  NN.is_fitted s = trained ->
  NN.is_fitted (fst (NN.run s trained cs)) = snd (NN.run s trained cs).
Proof.
  revert s trained. induction cs as [|c rest IH]; intros s trained E; simpl; auto.
  pose proof (exec_is_fitted s c) as Ec.
  destruct (NN.exec s c) as [s1 returned]. cbn [fst snd] in Ec.
  apply IH. rewrite Ec, E. reflexivity.
Qed.

Lemma predict_not_unfitted (s : NN.t) (x : ndarray A) :
  NN.is_fitted s = true -> snd (NN.predict s x) <> Raise AssertionError_not_fitted.
Proof.
  intros E. unfold NN.predict. rewrite E.
  destruct (forward_sweep (NN.layers s) x) as [ls r]. apply lift_py_fitted.
Qed.

Lemma cost_not_unfitted (s : NN.t) (x y : option (ndarray A)) :
  NN.is_fitted s = true -> snd (NN.cost s x y) <> Raise AssertionError_not_fitted.
Proof.
  intros E. unfold NN.cost. rewrite E.
  assert (P : forall x0 y0,
             snd (match NN.predict s x0 with
                  | (s1, Raise e) => (s1, Raise e)
                  | (s1, Ok output) => (s1, lift_py (NN.loss s y0 output))
                  end) <> Raise AssertionError_not_fitted).
  { intros x0 y0. unfold NN.predict. rewrite E.
    destruct (forward_sweep (NN.layers s) x0) as [ls [o|e]]; cbn.
    - apply lift_py_fitted.
    - discriminate. }
  destruct (NN.dataset s) as [d|].
  - apply P.
  - destruct x as [x0|]; [ | discriminate ].
    destruct y as [y0|]; [ apply P | discriminate ].
Qed.

(** C8.  Take any sequence of calls on a freshly built network, with any
    layers added along the way.  As long as no [fit] or [fit_batch] of the
    sequence has returned, [predict] and [cost] raise the assertion error
    of an unfitted model and leave the network as it is; once one of them
    has returned, neither [predict] nor [cost] raises that error. *)
Theorem NN_unfitted_use
    (epochs : nat) (lr : A) (verbose : bool)
    (mse : NN.loss_fn) (mse_prime : NN.loss_prime_fn)
    (cs : list NN.call) (x : ndarray A) (X' Y' : option (ndarray A)) :
  let s := fst (NN.run (NN.init epochs lr verbose mse mse_prime) false cs) in
  let trained := snd (NN.run (NN.init epochs lr verbose mse mse_prime) false cs) in
  if trained
  then snd (NN.predict s x) <> Raise AssertionError_not_fitted /\
       snd (NN.cost s X' Y') <> Raise AssertionError_not_fitted
  else NN.predict s x = (s, Raise AssertionError_not_fitted) /\
       NN.cost s X' Y' = (s, Raise AssertionError_not_fitted).
Proof.
  intros s trained.
  assert (E : NN.is_fitted s = trained)
    by exact (@run_is_fitted cs (NN.init epochs lr verbose mse mse_prime) false eq_refl).
  destruct trained.
  - split; [ apply predict_not_unfitted | apply cost_not_unfitted ]; exact E.
  - unfold NN.predict, NN.cost. rewrite E. split; reflexivity.
Qed.

End NNFitted.

(** ** Conv2D *)


Section Conv2DProperties.
Context {A : Type} `{Scalar A}.

Lemma pad2D_amounts (x : ndarray A) (n h w c : nat) (pad : padding_arg)
    (ks : list nat) (s : nat) :
  shape x = [n; h; w; c] ->
  exists X_pad, Im2col.pad2D x pad ks s = Ok (X_pad, pad_tuple pad) /\
    shape X_pad = [n; h + fst (fst (fst (pad_tuple pad))) + snd (fst (fst (pad_tuple pad)));
                   w + snd (fst (pad_tuple pad)) + snd (pad_tuple pad); c].
Proof.
  intros Hx. unfold Im2col.pad2D. rewrite Hx.
  destruct (pad_tuple pad) as [[[pr1 pr2] pc1] pc2].
  eexists; split; reflexivity.
Qed.



End Conv2DProperties.



(** ** Invalid configurations *)

Section InvalidConfiguration.
Context {A : Type} `{Scalar A}.






End InvalidConfiguration.

(** ** Runs on the sample inputs *)



(** C1.  On a layer with a 1 x 2 kernel over two input channels,
    [backward] reshapes the kernel into the rows (1, 2, 3, 4), while
    [forward] multiplied by the kernel matrix (1, 3, 2, 4).  The column
    gradient of [backward] is therefore not the transposed kernel matrix
    of [forward] times the reshaped error, and the gradient it returns for
    the input, (1, 3, 2, 4), is not the gradient of the output
    1*x00 + 2*x01 + 3*x10 + 4*x11 that [forward] computed, which
    is (1, 2, 3, 4). *)
Lemma Conv2D_backward_kernel_matrix :
  let conv := Sample.conv_two_channels in
  let w := Conv2D.weights conv in
  let erro := Sample.tensor [1; 1; 1; 1] [1]%Z in
  Conv2D.W_col w 1 = Ok (Sample.tensor [1; 4] [1; 3; 2; 4]%Z) /\
  Conv2D.W_reshape w 1 = Ok (Sample.tensor [1; 4] [1; 2; 3; 4]%Z) /\
  Conv2D.dX_col w erro 1 = Ok (Sample.tensor [4; 1] [1; 2; 3; 4]%Z) /\
  (Wc <- Conv2D.W_col w 1 ;;
   dout <- Conv2D.dout_reshaped erro 1 ;;
   np_dot (np_T Wc) dout) = Ok (Sample.tensor [4; 1] [1; 3; 2; 4]%Z) /\
  snd (Conv2D.forward conv Sample.row_two_channels)
  = Ok (Sample.tensor [1; 1; 1; 1] [70]%Z) /\
  snd (Conv2D.backward (fst (Conv2D.forward conv Sample.row_two_channels))
                       erro (1 # 10)%Q)
  = Ok (Sample.tensor [1; 1; 2; 2] [1; 3; 2; 4]%Z).
Proof. vm_compute. repeat split. Qed.

(** C2.  With one chunk of four samples whose loss is 8, [fit_batch]
    records 8 / 4 = 2; with chunks of four and two samples whose losses
    are 8 and 4, it records (8 + 4) / 4 = 3 and not their average 6; and
    with three chunks of two samples it raises an index error in the
    first epoch, the third chunk having no slot in the buffer of length
    [batchsize]. *)
Lemma fit_batch_history_entry :
  let nn := Sample.plain_network in
  (snd (NN.sweep nn (NN.X Sample.four_samples) (Ok (NN.Y Sample.four_samples)))
   = Ok 8%Q /\
   snd (NN.fit_batch nn Sample.four_samples 4) = Ok tt /\
   NN.history (fst (NN.fit_batch nn Sample.four_samples 4)) = [(0, 2%Q)]) /\
  (snd (NN.sweep nn (Sample.tensor [4; 1] [2; 2; 2; 2]%Z)
                 (Ok (Sample.tensor [4; 1] [0; 1; 1; 0]%Z))) = Ok 8%Q /\
   snd (NN.sweep nn (Sample.tensor [2; 1] [2; 2]%Z)
                 (Ok (Sample.tensor [2; 1] [1; 0]%Z))) = Ok 4%Q /\
   slice_rows (NN.X Sample.six_samples) 0 4 = Ok (Sample.tensor [4; 1] [2; 2; 2; 2]%Z) /\
   slice_rows (NN.X Sample.six_samples) 4 8 = Ok (Sample.tensor [2; 1] [2; 2]%Z) /\
   NN.ceil_div 6 4 = 2 /\
   snd (NN.fit_batch nn Sample.six_samples 4) = Ok tt /\
   NN.history (fst (NN.fit_batch nn Sample.six_samples 4)) = [(0, 3%Q)]) /\
  (NN.ceil_div 6 2 = 3 /\
   snd (NN.fit_batch nn Sample.six_samples 2) = Raise (Py IndexError) /\
   NN.is_fitted (fst (NN.fit_batch nn Sample.six_samples 2)) = false).
Proof. vm_compute. repeat split. Qed.

(** C3.  On a 2 x 2 image with two channels, [forward] returns the two
    channel maxima 5 and 9.  [backward] of a unit gradient then puts 1 on
    the entry (row 1, column 0, channel 0), whose value 2 is not the
    maximum of its channel, and 0 on the entry (row 0, column 1,
    channel 0), which holds the maximum 5. *)
Lemma MaxPooling2D_backward_two_channels :
  let pool := Sample.pool_2x2 in
  let x := Sample.image_2x2x2 in
  snd (MaxPooling2D.forward pool x) = Ok (Sample.tensor [1; 1; 1; 2] [5; 9]%Z) /\
  snd (MaxPooling2D.backward (fst (MaxPooling2D.forward pool x))
                             (Sample.ones [1; 1; 1; 2]) (1 # 10)%Q)
  = Ok (Sample.tensor [1; 2; 2; 2] [0; 1;  0; 0;
                                    1; 0;  0; 0]%Z) /\
  Im2col.at4 x 0 1 0 0 = 2%Q /\ Im2col.at4 x 0 0 1 0 = 5%Q.
Proof. vm_compute. repeat split. Qed.

(** On the single-channel 4 x 4 image, [forward] returns the block maxima
    and [backward] sends a unit gradient to the four cells that held
    them. *)
Lemma MaxPooling2D_image_4x4 :
  let pool := Sample.pool_2x2 in
  snd (MaxPooling2D.forward pool Sample.image_4x4)
  = Ok (Sample.tensor [1; 2; 2; 1] [4; 8; 12; 16]%Z) /\
  MaxPooling2D.max_idx (fst (MaxPooling2D.forward pool Sample.image_4x4))
  = Some [3; 3; 3; 2] /\
  snd (MaxPooling2D.backward (fst (MaxPooling2D.forward pool Sample.image_4x4))
                             (Sample.ones [1; 2; 2; 1]) (1 # 10)%Q)
  = Ok (Sample.tensor [1; 4; 4; 1] [0; 0; 0; 0;
                                    0; 1; 0; 1;
                                    0; 0; 0; 0;
                                    0; 1; 1; 0]%Z).
Proof. vm_compute. repeat split. Qed.

Lemma Dense_backward_gradients_witness :
  exists self' input_error,
    Dense.backward Sample.dense_2_1 (Sample.tensor [1; 1] [1]%Z) (1 # 10)%Q
    = (self', Ok input_error) /\
    shape input_error = [1; 2] /\
    shape (Dense.weights self') = [2; 1] /\ shape (Dense.bias self') = [1; 1].
Proof.
  destruct (@Dense_backward_gradients Q _ Sample.dense_2_1
              (Sample.tensor [1; 2] [3; 4]%Z) (Sample.tensor [1; 1] [1]%Z)
              (1 # 10)%Q 1 2 1)
    as (self' & ie & E & S & _ & Sw & _ & Sb & _); try reflexivity.
  exists self', ie. repeat split; assumption.
Defined.

Lemma Dense_shapes_invariant_witness :
  Dense_shaped 2 1
    (fst (Dense.backward (fst (Dense.forward Sample.dense_2_1
                                             (Sample.tensor [3; 2] [1; 2; 3; 4; 5; 6]%Z)))
                         (Sample.tensor [3; 1] [1; 1; 1]%Z) (1 # 10)%Q)) /\
  is_ok (snd (Dense.backward (fst (Dense.forward Sample.dense_2_1
                                             (Sample.tensor [3; 2] [1; 2; 3; 4; 5; 6]%Z)))
                         (Sample.tensor [3; 1] [1; 1; 1]%Z) (1 # 10)%Q)) = true.
Proof.
  destruct (@Dense_shapes_invariant Q _ 2 1 Sample.dense_2_1
              (Sample.tensor [3; 2] [1; 2; 3; 4; 5; 6]%Z)
              (Sample.tensor [3; 1] [1; 1; 1]%Z) (1 # 10)%Q)
    as (_ & S & R).
  - split; reflexivity.
  - split; [ exact S | apply (R 3); reflexivity ].
Defined.

Lemma Flatten_round_trip_witness :
  exists out,
    snd (Flatten.forward Flatten.init (Sample.ones [2; 3; 4])) = Ok out /\
    shape out = [2; 12].
Proof.
  destruct (@Flatten_round_trip Q Flatten.init (Sample.ones [2; 3; 4]) 2 [3; 4]
              (1 # 10)%Q)
    as (out & E & S & _).
  - reflexivity.
  - lia.
  - exists out. rewrite E. split; [ reflexivity | exact S ].
Defined.

(** C9 does not hold for an empty batch: on a tensor of shape (0, 3)
    numpy cannot infer the second extent of [reshape(0, -1)], and
    [forward] raises after it has cached the shape, instead of returning
    a tensor of shape (0, 3). *)
Lemma Flatten_empty_batch :
  Flatten.forward Flatten.init (Sample.ones [0; 3])
  = (Flatten.Build (Some [0; 3]), Raise NumpyError).
Proof. reflexivity. Qed.

(** * Further properties of the layers *)

(** ** More index arithmetic *)

Lemma broadcast_rev_same (l : list nat) : broadcast_rev l l = Some l.
Proof.
  induction l as [|x l IH]; simpl; auto. rewrite IH, Nat.eqb_refl. reflexivity.
Qed.

Lemma broadcast_shapes_same (sh : list nat) : broadcast_shapes sh sh = Some sh.
Proof.
  unfold broadcast_shapes. rewrite broadcast_rev_same. simpl.
  rewrite rev_involutive. reflexivity.
Qed.

Lemma broadcast_shapes_rows (n c : nat) : broadcast_shapes [n; c] [1; c] = Some [n; c].
Proof.
  unfold broadcast_shapes; simpl. rewrite Nat.eqb_refl.
  destruct (n =? 1) eqn:E; [ apply Nat.eqb_eq in E; subst | ]; reflexivity.
Qed.

Lemma size_of_cons (d : nat) (rest : list nat) : size_of (d :: rest) = d * size_of rest.
Proof. reflexivity. Qed.

Lemma unravel_length (sh : list nat) (k : nat) : length (unravel sh k) = length sh.
Proof. revert k; induction sh as [|d rest IH]; intros k; simpl; auto. Qed.

(** Every coordinate of the multi-index of a position of the array is
    within its axis. *)
Lemma unravel_bounds (sh : list nat) (k : nat) :
  k < size_of sh -> Forall2 lt (unravel sh k) sh.
Proof.
  revert k; induction sh as [|d rest IH]; intros k Hk; simpl; constructor.
  - rewrite size_of_cons in Hk.
    apply Nat.Div0.div_lt_upper_bound. lia.
  - apply IH. apply Nat.mod_upper_bound.
    rewrite size_of_cons in Hk. destruct (size_of rest); lia.
Qed.

Lemma ravel_unravel (sh : list nat) (k : nat) :
  k < size_of sh -> ravel sh (unravel sh k) = k.
Proof.
  revert k; induction sh as [|d rest IH]; intros k Hk.
  - simpl in *. unfold size_of in Hk; simpl in Hk. lia.
  - cbn [unravel ravel]. rewrite size_of_cons in Hk.
    assert (Hr : size_of rest <> 0) by (destruct (size_of rest); lia).
    rewrite IH by (apply Nat.mod_upper_bound; exact Hr).
    rewrite (Nat.div_mod_eq k (size_of rest)) at 3. lia.
Qed.

Lemma bidx_in_bounds (sh idx : list nat) : Forall2 lt idx sh -> bidx sh idx = idx.
Proof.
  intros F. unfold bidx.
  rewrite (Forall2_length F), Nat.sub_diag. cbn [skipn].
  induction F as [|i d idx sh Hi F IH]; simpl; auto.
  rewrite (read_axis Hi), IH. reflexivity.
Qed.

Lemma firstn_min_length {T : Type} (m : nat) (l : list T) :
  firstn (Nat.min m (length l)) l = firstn m l.
Proof.
  destruct (Nat.le_ge_cases m (length l)) as [Hm|Hm].
  - rewrite Nat.min_l by exact Hm. reflexivity.
  - rewrite Nat.min_r by exact Hm.
    rewrite !firstn_all2 by lia. reflexivity.
Qed.

(** Cutting a list into [k] consecutive pieces of length [b] and gluing
    them gives its first [k * b] elements. *)
Lemma concat_chunks {T : Type} (b : nat) (l : list T) (k : nat) :
  concat (map (fun i => firstn b (skipn (i * b) l)) (seq 0 k)) = firstn (k * b) l.
Proof.
  induction k as [|k IH]; [ reflexivity | ].
  rewrite seq_S, map_app, concat_app, IH. cbn [map concat Nat.add].
  rewrite app_nil_r.
  rewrite <- (firstn_skipn (k * b) (firstn (S k * b) l)).
  rewrite firstn_firstn, Nat.min_l by lia.
  rewrite skipn_firstn_comm. do 2 f_equal. lia.
Qed.

Section MoreNumpyProperties.
Context {A : Type} `{Scalar A}.

Lemma item_np_map (f : A -> A) (a : ndarray A) (k : nat) :
  k < length (data a) -> item (np_map f a) k = f (item a k).
Proof.
  intros Hk. unfold item, np_map; cbn [data].
  rewrite (nth_indep _ szero (f szero)) by (rewrite length_map; exact Hk).
  apply map_nth.
Qed.

(** An elementwise operation on two arrays of one shape. *)
Lemma np_binop_same_shape (op : A -> A -> A) (a b : ndarray A) :
  shape b = shape a ->
  exists c, np_binop op a b = Ok c /\ shape c = shape a /\
    length (data c) = size_of (shape a) /\
    forall k, k < size_of (shape a) -> item c k = op (item a k) (item b k).
Proof.
  intros Hb. unfold np_binop. rewrite Hb, broadcast_shapes_same.
  eexists; split; [ reflexivity | split; [ reflexivity | split ] ].
  - unfold broadcast2, tabulate; cbn [data]. rewrite length_map, length_seq. reflexivity.
  - intros k Hk. unfold broadcast2. rewrite item_tabulate by exact Hk.
    cbv zeta. rewrite Hb, (bidx_in_bounds (unravel_bounds _ Hk)), (ravel_unravel _ Hk).
    reflexivity.
Qed.

(** A matrix plus a one-row matrix: the row is added to every row. *)
Lemma np_binop_rows (op : A -> A -> A) (a b : ndarray A) (n c : nat) :
  shape a = [n; c] -> shape b = [1; c] ->
  exists r, np_binop op a b = Ok r /\ shape r = [n; c] /\
    forall i j, i < n -> j < c -> at2 r i j = op (at2 a i j) (at2 b 0 j).
Proof.
  intros Ha Hb. unfold np_binop. rewrite Ha, Hb, broadcast_shapes_rows.
  eexists; split; [ reflexivity | split; [ reflexivity | ] ].
  intros i j Hi Hj. unfold broadcast2. rewrite at2_tabulate by assumption.
  cbv zeta. rewrite Ha, Hb, (unravel_2 n i Hj), (bidx_2_same Hi Hj), !ravel_2.
  rewrite (at2_item a i j Ha), (at2_item b 0 j Hb).
  unfold bidx; cbn [length Nat.sub skipn combine map fst snd Nat.eqb].
  rewrite (read_axis Hj), ravel_2. reflexivity.
Qed.

Lemma np_dot_inv (a b c : ndarray A) :
  np_dot a b = Ok c ->
  exists n k m, shape a = [n; k] /\ shape b = [k; m] /\ shape c = [n; m].
Proof.
  unfold np_dot.
  destruct (shape a) as [|n [|k [|? ?]]]; try discriminate.
  destruct (shape b) as [|k' [|m [|? ?]]]; try discriminate.
  destruct (Nat.eqb_spec k k'); try discriminate.
  intros [= <-]. subst. exists n, k', m. repeat split.
Qed.

(** [a.reshape(sh)] for an explicit shape: the element counts must agree. *)
Lemma reshape_dims (a : ndarray A) (sh : list nat) :
  reshape a (dims_of sh)
  = if size_of sh =? size_of (shape a) then Ok (NDArray sh (data a))
    else Raise NumpyError.
Proof.
  unfold reshape.
  rewrite dims_nonneg by lia. rewrite dims_no_unknown. cbn [length].
  rewrite size_of_dims.
  unfold dims_of. rewrite map_map.
  rewrite (map_ext _ (fun x => x)) by (intros; apply Nat2Z.id).
  rewrite map_id. reflexivity.
Qed.

End MoreNumpyProperties.

(** ** Dense, Activation and Flatten *)

Section MoreLayerProperties.
Context {A : Type} `{Scalar A}.

(** X1.  On a batch [x] of shape [(n, i)], the forward call of a layer of
    sizes [(i, o)] caches [x], returns the affine image
    [out[r, c] = sum_k x[r, k] * weights[k, c] + bias[0, c]] of shape
    [(n, o)], caches it as well and leaves the parameters as they were. *)
Theorem Dense_forward_affine
    (self : Dense.t) (x : ndarray A) (n i o : nat) :
  Dense_shaped i o self -> shape x = [n; i] ->
  exists out,
    Dense.forward self x
    = (Dense.Build (Dense.weights self) (Dense.bias self) (Some x) (Some out), Ok out) /\
    shape out = [n; o] /\
    forall r c, r < n -> c < o ->
      at2 out r c
      = sadd (sum_upto i (fun k => smul (at2 x r k) (at2 (Dense.weights self) k c)))
             (at2 (Dense.bias self) 0 c).
Proof.
  intros [HW Hb] Hx. unfold Dense.forward.
  rewrite (np_dot_2d x (Dense.weights self) Hx HW). cbn [bind].
  match goal with
  | |- context [np_binop sadd ?P (Dense.bias self)] =>
      destruct (np_binop_rows sadd P (Dense.bias self) (n := n) (c := o) eq_refl Hb)
        as (out & E & S & V)
  end.
  rewrite E. exists out. split; [ reflexivity | split; [ exact S | ] ].
  intros r c Hr Hc. rewrite (V r c Hr Hc), at2_mk2 by assumption. reflexivity.
Qed.

(** X2.  A backward call on matrices never updates one parameter without
    the other: for a layer of sizes [(i, o)] with a cached 2-D input and a
    2-D gradient, either the call returns, or it raises and the layer is
    exactly as it was. *)
Theorem Dense_backward_all_or_nothing
    (self : Dense.t) (inp G : ndarray A) (lr : A) (i o n k n' m : nat) :
  Dense_shaped i o self ->
  Dense.input self = Some inp -> shape inp = [n; k] -> shape G = [n'; m] ->
  is_ok (snd (Dense.backward self G lr)) = false ->
  fst (Dense.backward self G lr) = self.
Proof.
  intros [HW Hb] Hin Hinp HG. unfold Dense.backward. rewrite Hin.
  destruct (np_dot (np_T inp) G) as [we|e] eqn:E1; [ | reflexivity ].
  unfold np_sum_axis0. rewrite HG. cbn [bind].
  destruct (np_dot G (np_T (Dense.weights self))) as [ie|e] eqn:E3; [ | reflexivity ].
  cbn [bind].
  destruct (np_inplace ssub (Dense.weights self) (np_scale lr we)) as [w'|e];
    [ | reflexivity ].
  apply np_dot_inv in E3 as (a & b & c & Sa & Sb & _).
  rewrite (shape_T _ HW) in Sb. rewrite HG in Sa.
  injection Sa as -> ->. injection Sb as -> ->.
  match goal with
  | |- context [np_inplace ssub (Dense.bias self) ?E] =>
      destruct (np_inplace_row ssub (Dense.bias self) E Hb eq_refl) as (b' & -> & _)
  end.
  cbn. discriminate.
Qed.

(** X3.  An activation layer applies its function to every element and
    keeps the shape; after that forward call, its backward call on a
    gradient of the same shape returns, element by element, the
    derivative at the cached input times the gradient, and has nothing to
    update. *)
Theorem Activation_chain_rule
    (self : Activation.t) (x erro : ndarray A) (lr : A) :
  length (data x) = size_of (shape x) -> shape erro = shape x ->
  let self1 := fst (Activation.forward self x) in
  snd (Activation.forward self x) = Ok (np_map (Activation.activation self) x) /\
  shape (np_map (Activation.activation self) x) = shape x /\
  exists g,
    Activation.backward self1 erro lr = (self1, Ok g) /\
    shape g = shape x /\
    forall k, k < size_of (shape x) ->
      item g k = smul (Activation.prime self (item x k)) (item erro k).
Proof.
  intros Hwf He self1. split; [ reflexivity | split; [ reflexivity | ] ].
  unfold Activation.backward. subst self1. cbn [fst Activation.forward Activation.input Activation.prime].
  destruct (np_binop_same_shape smul (np_map (Activation.prime self) x) erro He)
    as (g & E & S & _ & V).
  rewrite E. exists g. split; [ reflexivity | split; [ exact S | ] ].
  intros k Hk. rewrite (V k Hk), item_np_map by (rewrite Hwf; exact Hk).
  reflexivity.
Qed.

(** X4.  After a forward call that cached the shape [sh],
    [Flatten.backward] accepts exactly the gradients that have as many
    elements as [sh], whatever their own shape: it returns their elements
    with shape [sh], and raises on any other gradient.  Before any
    forward call it raises an attribute error.  The layer is never
    changed. *)
Theorem Flatten_backward_accepts
    (self : Flatten.t) (g : ndarray A) (lr : A) :
  Flatten.backward self g lr
  = (self,
     match Flatten.input_shape self with
     | None => Raise AttributeError
     | Some sh =>
         if size_of (shape g) =? size_of sh then Ok (NDArray sh (data g))
         else Raise NumpyError
     end).
Proof.
  unfold Flatten.backward. destruct (Flatten.input_shape self) as [sh|]; [ | reflexivity ].
  rewrite reshape_dims, (Nat.eqb_sym (size_of sh)). reflexivity.
Qed.


End MoreLayerProperties.

(** ** The network: what the calls keep *)

Ltac destruct_matches :=
  repeat match goal with
         | |- context [match ?x with _ => _ end] => destruct x
         end.

Ltac nn_simpl :=
  cbn [fst snd NN.layers NN.history NN.history_batch NN.is_fitted NN.dataset
       NN.set_layers NN.set_history NN.set_history_batch NN.set_dataset
       NN.set_is_fitted] in *.

Section MoreNNProperties.
Context {A : Type} `{Scalar A}.

Lemma Conv2D_forward_state (c : Conv2D.t) (x : ndarray A) :
  fst (Conv2D.forward c x) = Conv2D.set_X_shape c (shape x) \/
  exists xcol,
    fst (Conv2D.forward c x) = Conv2D.set_X_col (Conv2D.set_X_shape c (shape x)) xcol.
Proof.
  unfold Conv2D.forward. destruct_matches; cbn [fst]; eauto.
Qed.

Lemma Pooling2D_forward_state (p : MaxPooling2D.t) (x : ndarray A) :
  MaxPooling2D.size (fst (MaxPooling2D.forward p x)) = MaxPooling2D.size p /\
  MaxPooling2D.stride (fst (MaxPooling2D.forward p x)) = MaxPooling2D.stride p.
Proof.
  unfold MaxPooling2D.forward. destruct_matches; cbn; auto.
Qed.

Lemma forward_parameters (l : layer A) (x : ndarray A) :
  parameters (fst (forward l x)) = parameters l.
Proof.
  destruct l as [d|a|f|c|p]; cbn [forward with_layer fst parameters]; try reflexivity.
  - destruct (Dense_forward_parameters d x) as (-> & -> & _). reflexivity.
  - destruct (Conv2D_forward_state c x) as [-> | (xcol & ->)]; reflexivity.
Qed.

Lemma forward_architecture (l : layer A) (x : ndarray A) :
  architecture_of (fst (forward l x)) = architecture_of l.
Proof.
  destruct l as [d|a|f|c|p]; cbn [forward with_layer fst architecture_of]; try reflexivity.
  - destruct (Dense_forward_parameters d x) as (-> & -> & _). reflexivity.
  - destruct (Conv2D_forward_state c x) as [-> | (xcol & ->)]; reflexivity.
  - destruct (Pooling2D_forward_state p x) as (-> & ->). reflexivity.
Qed.

Lemma Conv2D_backward_shapes (c : Conv2D.t) (g : ndarray A) (lr : A) :
  architecture_of (LConv2D (fst (Conv2D.backward c g lr))) = architecture_of (LConv2D c).
Proof.
  unfold Conv2D.backward.
  destruct (shape (Conv2D.weights c)) as [|fr [|fc [|ic [|oc [|? ?]]]]]; try reflexivity.
  match goal with
  | |- context [match ?chain with Ok _ => _ | Raise _ => _ end] =>
      destruct chain as [[[db dW] ie]|e]
  end; [ | reflexivity ].
  destruct (np_inplace ssub (Conv2D.weights c) (np_scale lr dW)) as [w'|e] eqn:Ew;
    [ | reflexivity ].
  apply np_inplace_shape in Ew.
  cbn [Conv2D.set_weights Conv2D.bias].
  destruct (np_inplace ssub (Conv2D.bias c) (np_scale lr db)) as [b'|e] eqn:Eb;
    cbn; [ apply np_inplace_shape in Eb | ]; congruence.
Qed.

Lemma backward_architecture (l : layer A) (g : ndarray A) (lr : A) :
  architecture_of (fst (backward l g lr)) = architecture_of l.
Proof.
  destruct l as [d|a|f|c|p]; cbn [backward with_layer fst].
  - cbn [architecture_of]. destruct (Dense_backward_shapes d g lr) as (-> & ->).
    reflexivity.
  - unfold Activation.backward. destruct_matches; reflexivity.
  - reflexivity.
  - apply Conv2D_backward_shapes.
  - unfold MaxPooling2D.backward. destruct_matches; reflexivity.
Qed.

Lemma forward_sweep_keeps {T : Type} (f : layer A -> T) :
  (forall l x, f (fst (forward l x)) = f l) ->
  forall ls x, map f (fst (forward_sweep ls x)) = map f ls.
Proof.
  intros Hf. induction ls as [|l rest IH]; intros x; [ reflexivity | ].
  cbn [forward_sweep]. specialize (Hf l x).
  destruct (forward l x) as [l' [out|e]]; cbn [fst] in Hf.
  - specialize (IH out). destruct (forward_sweep rest out) as [rest' r].
    cbn [fst map] in *. congruence.
  - cbn [fst map]. congruence.
Qed.

Lemma backward_sweep_keeps {T : Type} (f : layer A -> T) :
  (forall l g lr, f (fst (backward l g lr)) = f l) ->
  forall ls g lr, map f (fst (backward_sweep ls g lr)) = map f ls.
Proof.
  intros Hf. induction ls as [|l rest IH]; intros g lr; [ reflexivity | ].
  cbn [backward_sweep]. specialize (IH g lr).
  destruct (backward_sweep rest g lr) as [rest' [err|e]]; cbn [fst] in IH.
  - specialize (Hf l err lr). destruct (backward l err lr) as [l' r].
    cbn [fst map] in *. congruence.
  - cbn [fst map]. congruence.
Qed.

(** What a projection of the layers that both passes keep becomes under
    the four calls of the network. *)
Section Kept.
Variable T : Type.
Variable f : layer A -> T.
Hypothesis forward_keeps : forall l x, f (fst (forward l x)) = f l.
Hypothesis backward_keeps : forall l g lr, f (fst (backward l g lr)) = f l.

Lemma sweep_keeps (s : NN.t) (x : ndarray A) (y : result py_exn (ndarray A)) :
  map f (NN.layers (fst (NN.sweep s x y))) = map f (NN.layers s).
Proof.
  unfold NN.sweep.
  pose proof (forward_sweep_keeps f forward_keeps (NN.layers s) x) as F.
  destruct (forward_sweep (NN.layers s) x) as [ls1 [out|e]]; cbn [fst] in F;
    [ | exact F ].
  destruct (yv <- y ;; NN.loss_prime s yv out) as [err|e]; [ | exact F ].
  pose proof (backward_sweep_keeps f backward_keeps ls1 err (NN.lr s)) as B.
  destruct (backward_sweep ls1 err (NN.lr s)) as [ls2 [g|e]];
    cbn [fst NN.layers NN.set_layers] in *; congruence.
Qed.

Lemma fit_keeps (s : NN.t) (d : NN.Dataset) :
  map f (NN.layers (fst (NN.fit s d))) = map f (NN.layers s).
Proof.
  unfold NN.fit. destruct (NN.getXy d) as [x y].
  pose proof (for_each_invariant
                (fun s' => map f (NN.layers s') = map f (NN.layers s))
                (NN.fit_epoch x y) (seq 0 (NN.epochs s))) as E.
  assert (Hbody : forall s' i,
             map f (NN.layers s') = map f (NN.layers s) ->
             map f (NN.layers (fst (NN.fit_epoch x y s' i))) = map f (NN.layers s)).
  { intros s' i Hs'. unfold NN.fit_epoch.
    pose proof (sweep_keeps s' x (Ok y)) as K.
    destruct (NN.sweep s' x (Ok y)) as [s1 [err|e]]; nn_simpl; congruence. }
  specialize (E Hbody (NN.set_history (NN.set_dataset s d) []) eq_refl).
  destruct (NN.for_each _ _ _) as [s2 [u|e]]; exact E.
Qed.

Lemma fit_batch_keeps (s : NN.t) (d : NN.Dataset) (b : nat) :
  map f (NN.layers (fst (NN.fit_batch s d b))) = map f (NN.layers s).
Proof.
  unfold NN.fit_batch. destruct (NN.getXy d) as [x y].
  destruct (shape x) as [|n rest]; [ reflexivity | ].
  destruct (n <? b); [ reflexivity | ].
  destruct (b =? 0); [ reflexivity | ].
  assert (Hstep : forall s' i,
             map f (NN.layers s') = map f (NN.layers s) ->
             map f (NN.layers (fst (NN.fit_batch_step x y b s' i))) = map f (NN.layers s)).
  { intros s' i Hs'. unfold NN.fit_batch_step.
    destruct (slice_rows x (i * b) ((i + 1) * b)) as [xb|e]; [ | exact Hs' ].
    pose proof (sweep_keeps s' xb (slice_rows y (i * b) ((i + 1) * b))) as K.
    destruct (NN.sweep s' xb _) as [s1 [err|e]]; nn_simpl; [ | congruence ].
    destruct (NN.history_batch s1) as [hb|]; [ | nn_simpl; congruence ].
    destruct (NN.store_batch hb i err); nn_simpl; congruence. }
  assert (Hepoch : forall s' i,
             map f (NN.layers s') = map f (NN.layers s) ->
             map f (NN.layers (fst (NN.fit_batch_epoch x y b (NN.ceil_div n b) s' i)))
             = map f (NN.layers s)).
  { intros s' i Hs'. unfold NN.fit_batch_epoch.
    pose proof (for_each_invariant
                  (fun t => map f (NN.layers t) = map f (NN.layers s))
                  (NN.fit_batch_step x y b) (seq 0 (NN.ceil_div n b)) Hstep
                  (NN.set_history_batch s' (np_zeros [1; b])) Hs') as E.
    destruct (NN.for_each _ _ _) as [s2 [u|e]]; [ | exact E ].
    destruct (NN.history_batch s2); exact E. }
  pose proof (for_each_invariant
                (fun t => map f (NN.layers t) = map f (NN.layers s))
                (NN.fit_batch_epoch x y b (NN.ceil_div n b)) (seq 0 (NN.epochs s))
                Hepoch (NN.set_history (NN.set_dataset s d) []) eq_refl) as E.
  destruct (NN.for_each _ _ _) as [s2 [u|e]]; exact E.
Qed.

End Kept.

Lemma predict_keeps {T : Type} (f : layer A -> T) :
  (forall l x, f (fst (forward l x)) = f l) ->
  forall s x, map f (NN.layers (fst (NN.predict s x))) = map f (NN.layers s).
Proof.
  intros Hf s x. unfold NN.predict. destruct (NN.is_fitted s); [ | reflexivity ].
  pose proof (forward_sweep_keeps f Hf (NN.layers s) x) as F.
  destruct (forward_sweep (NN.layers s) x) as [ls r]. exact F.
Qed.

Lemma cost_keeps {T : Type} (f : layer A -> T) :
  (forall l x, f (fst (forward l x)) = f l) ->
  forall s x y, map f (NN.layers (fst (NN.cost s x y))) = map f (NN.layers s).
Proof.
  intros Hf s x y. unfold NN.cost. destruct (NN.is_fitted s); [ | reflexivity ].
  assert (P : forall x0 y0,
             map f (NN.layers
                      (fst (match NN.predict s x0 with
                            | (s1, Raise e) => (s1, Raise e)
                            | (s1, Ok output) => (s1, lift_py (NN.loss s y0 output))
                            end))) = map f (NN.layers s)).
  { intros x0 y0. pose proof (predict_keeps f Hf s x0) as K.
    destruct (NN.predict s x0) as [s1 [o|e]]; exact K. }
  destruct (NN.dataset s) as [d|]; [ apply P | ].
  destruct x as [x0|]; [ | reflexivity ].
  destruct y as [y0|]; [ apply P | reflexivity ].
Qed.

(** X6.  No call on a network changes what it is made of: after [fit],
    [fit_batch], [predict] or [cost], returning or raising, the network
    has the same layers in the same order, each of the same class, with
    the same hyperparameters and the same parameter shapes. *)
Theorem NN_architecture_kept
    (s : NN.t) (d : NN.Dataset) (b : nat) (x : ndarray A) (X' Y' : option (ndarray A)) :
  map architecture_of (NN.layers (fst (NN.fit s d))) = map architecture_of (NN.layers s) /\
  map architecture_of (NN.layers (fst (NN.fit_batch s d b)))
  = map architecture_of (NN.layers s) /\
  map architecture_of (NN.layers (fst (NN.predict s x)))
  = map architecture_of (NN.layers s) /\
  map architecture_of (NN.layers (fst (NN.cost s X' Y')))
  = map architecture_of (NN.layers s).
Proof.
  repeat split.
  - apply fit_keeps; [ apply forward_architecture | apply backward_architecture ].
  - apply fit_batch_keeps; [ apply forward_architecture | apply backward_architecture ].
  - apply predict_keeps, forward_architecture.
  - apply cost_keeps, forward_architecture.
Qed.

(** X7.  [predict] and [cost] only run forward passes: whatever they
    return or raise, the weights and the bias of every layer are the
    arrays they were before the call. *)
Theorem NN_predict_keeps_parameters
    (s : NN.t) (x : ndarray A) (X' Y' : option (ndarray A)) :
  map parameters (NN.layers (fst (NN.predict s x))) = map parameters (NN.layers s) /\
  map parameters (NN.layers (fst (NN.cost s X' Y'))) = map parameters (NN.layers s).
Proof.
  split; [ apply predict_keeps | apply cost_keeps ]; apply forward_parameters.
Qed.

End MoreNNProperties.

(** ** The network: history and batches *)

Lemma ceil_div_covers (n b : nat) : 0 < b -> n <= NN.ceil_div n b * b.
Proof.
  intros Hb. unfold NN.ceil_div.
  pose proof (Nat.div_mod_eq (n + b - 1) b) as E.
  pose proof (Nat.mod_upper_bound (n + b - 1) b) as R. nia.
Qed.

Lemma ceil_div_batch (n b batch : nat) :
  0 < b -> batch < NN.ceil_div n b -> batch * b < n.
Proof.
  intros Hb. unfold NN.ceil_div. intros Hq.
  pose proof (Nat.div_mod_eq (n + b - 1) b) as E.
  pose proof (Nat.mod_upper_bound (n + b - 1) b) as R. nia.
Qed.

Lemma ceil_div_square (n b : nat) : 0 < b -> b * b < n -> b < NN.ceil_div n b.
Proof.
  intros Hb Hn. unfold NN.ceil_div.
  apply (Nat.lt_le_trans _ (S b)); [ lia | ].
  apply Nat.div_le_lower_bound; nia.
Qed.

Section HistoryProperties.
Context {A : Type} `{Scalar A}.

(** A loop whose body records its index exactly when it returns has
    recorded, when it ends, the indices of the iterations that returned:
    an initial segment of the range, all of it if the loop returned. *)
Lemma for_each_records {St : Type} (keys : St -> list nat)
    (body : St -> nat -> St * result exn unit) :
  (forall s i, keys (fst (body s i))
               = keys s ++ (if is_ok (snd (body s i)) then [i] else [])) ->
  forall k a s,
  exists j, j <= k /\
    keys (fst (NN.for_each body s (seq a k))) = keys s ++ seq a j /\
    (is_ok (snd (NN.for_each body s (seq a k))) = true -> j = k).
Proof.
  intros Hbody. induction k as [|k IH]; intros a s.
  - exists 0. cbn. rewrite app_nil_r. auto.
  - cbn [seq NN.for_each]. specialize (Hbody s a).
    destruct (body s a) as [s' [u|e]]; cbn [fst snd is_ok] in Hbody.
    + destruct (IH (S a) s') as (j & Hj & K & F).
      exists (S j). split; [ lia | ]. split.
      * rewrite K, Hbody, <- app_assoc. reflexivity.
      * intros E. rewrite (F E). reflexivity.
    + exists 0. cbn [fst snd is_ok seq]. split; [ lia | ].
      split; [ exact Hbody | discriminate ].
Qed.

Lemma sweep_history (s : NN.t) (x : ndarray A) (y : result py_exn (ndarray A)) :
  NN.history (fst (NN.sweep s x y)) = NN.history s /\
  NN.history_batch (fst (NN.sweep s x y)) = NN.history_batch s.
Proof.
  unfold NN.sweep.
  destruct (forward_sweep (NN.layers s) x) as [ls1 [out|e]]; [ | split; reflexivity ].
  destruct (yv <- y ;; NN.loss_prime s yv out) as [err|e]; [ | split; reflexivity ].
  destruct (backward_sweep ls1 err (NN.lr s)) as [ls2 [g|e]]; split; reflexivity.
Qed.

Lemma fit_epoch_records (x y : ndarray A) (s : NN.t) (i : nat) :
  recorded_epochs (fst (NN.fit_epoch x y s i))
  = recorded_epochs s ++ (if is_ok (snd (NN.fit_epoch x y s i)) then [i] else []).
Proof.
  unfold NN.fit_epoch, recorded_epochs.
  destruct (sweep_history s x (Ok y)) as (Hh & _).
  destruct (NN.sweep s x (Ok y)) as [s1 [err|e]]; nn_simpl; cbn [is_ok].
  - rewrite map_app, Hh. reflexivity.
  - rewrite app_nil_r, Hh. reflexivity.
Qed.

Lemma fit_batch_step_history (x y : ndarray A) (b : nat) (s : NN.t) (i : nat) :
  NN.history (fst (NN.fit_batch_step x y b s i)) = NN.history s.
Proof.
  unfold NN.fit_batch_step.
  destruct (slice_rows x (i * b) ((i + 1) * b)) as [xb|e]; [ | reflexivity ].
  destruct (sweep_history s xb (slice_rows y (i * b) ((i + 1) * b))) as (Hh & _).
  destruct (NN.sweep s xb _) as [s1 [err|e]]; nn_simpl; [ | exact Hh ].
  destruct (NN.history_batch s1) as [hb|]; [ | exact Hh ].
  destruct (NN.store_batch hb i err); exact Hh.
Qed.

Lemma fit_batch_epoch_records (x y : ndarray A) (b nb : nat) (s : NN.t) (i : nat) :
  recorded_epochs (fst (NN.fit_batch_epoch x y b nb s i))
  = recorded_epochs s
    ++ (if is_ok (snd (NN.fit_batch_epoch x y b nb s i)) then [i] else []).
Proof.
  unfold NN.fit_batch_epoch, recorded_epochs.
  pose proof (for_each_invariant (fun t => NN.history t = NN.history s)
                (NN.fit_batch_step x y b) (seq 0 nb)
                (fun t j Ht => eq_trans (fit_batch_step_history x y b t j) Ht)
                (NN.set_history_batch s (np_zeros [1; b])) eq_refl) as E.
  destruct (NN.for_each _ _ _) as [s2 [u|e]]; nn_simpl; cbn [is_ok].
  - destruct (NN.history_batch s2) as [hb|]; nn_simpl; cbn [is_ok].
    + rewrite map_app, E. reflexivity.
    + rewrite app_nil_r, E. reflexivity.
  - rewrite app_nil_r, E. reflexivity.
Qed.

(** X8.  [fit] starts a new history and records one loss per epoch, under
    the keys 0, 1, 2, ... in order: when it returns the keys are
    [0 .. epochs - 1], and when it raises they are those of the epochs
    completed before the failure.  A [fit_batch] that returns has
    recorded the keys [0 .. epochs - 1] as well. *)
Theorem NN_history_epochs (s : NN.t) (d : NN.Dataset) (b : nat) :
  (exists j, j <= NN.epochs s /\
     recorded_epochs (fst (NN.fit s d)) = seq 0 j /\
     (is_ok (snd (NN.fit s d)) = true -> j = NN.epochs s)) /\
  (is_ok (snd (NN.fit_batch s d b)) = true ->
   recorded_epochs (fst (NN.fit_batch s d b)) = seq 0 (NN.epochs s)).
Proof.
  split.
  - unfold NN.fit. destruct (NN.getXy d) as [x y].
    destruct (for_each_records recorded_epochs (NN.fit_epoch x y)
                (fit_epoch_records x y) (NN.epochs s) 0
                (NN.set_history (NN.set_dataset s d) []))
      as (j & Hj & K & F).
    exists j. split; [ exact Hj | ].
    destruct (NN.for_each _ _ _) as [s2 [u|e]]; cbn [fst snd is_ok] in *.
    + split; [ exact K | exact F ].
    + split; [ exact K | discriminate ].
  - unfold NN.fit_batch. destruct (NN.getXy d) as [x y].
    destruct (shape x) as [|n rest]; [ discriminate | ].
    destruct (n <? b); [ discriminate | ].
    destruct (b =? 0); [ discriminate | ].
    destruct (for_each_records recorded_epochs
                (NN.fit_batch_epoch x y b (NN.ceil_div n b))
                (fit_batch_epoch_records x y b (NN.ceil_div n b)) (NN.epochs s) 0
                (NN.set_history (NN.set_dataset s d) []))
      as (j & Hj & K & F).
    destruct (NN.for_each _ _ _) as [s2 [u|e]]; cbn [fst snd is_ok] in *;
      [ | discriminate ].
    intros _. rewrite <- (F eq_refl). exact K.
Qed.

Lemma store_batch_width (hb hb' : ndarray A) (batch : nat) (err : A) :
  NN.store_batch hb batch err = Ok hb' -> shape hb' = shape hb.
Proof.
  unfold NN.store_batch.
  destruct (shape hb) as [|a [|w [|? ?]]]; try discriminate.
  destruct (batch <? w); [ | discriminate ]. intros [= <-]. reflexivity.
Qed.

(** Once the batch index reaches the width of the buffer, the loop over
    the batches cannot return. *)
Lemma batches_overflow (x y : ndarray A) (b : nat) :
  forall k a (s : NN.t) hb,
    NN.history_batch s = Some hb -> shape hb = [1; b] ->
    a <= b -> b < a + k ->
    is_ok (snd (NN.for_each (NN.fit_batch_step x y b) s (seq a k))) = false.
Proof.
  induction k as [|k IH]; intros a s hb Hhb Hs Ha Hk; [ lia | ].
  cbn [seq NN.for_each].
  destruct (NN.fit_batch_step x y b s a) as [s' [u|e]] eqn:E; [ | reflexivity ].
  revert E. unfold NN.fit_batch_step.
  destruct (slice_rows x (a * b) ((a + 1) * b)) as [xb|e]; [ | discriminate ].
  destruct (sweep_history s xb (slice_rows y (a * b) ((a + 1) * b))) as (_ & Hb).
  destruct (NN.sweep s xb _) as [s1 [err|e]]; cbn [fst] in Hb; [ | discriminate ].
  rewrite Hb, Hhb.
  destruct (NN.store_batch hb a err) as [hb'|e] eqn:Est; [ | discriminate ].
  intros [= <-].
  pose proof (store_batch_width hb a err Est) as Sw.
  assert (a < b).
  { revert Est. unfold NN.store_batch. rewrite Hs.
    destruct (Nat.ltb_spec a b); [ auto | discriminate ]. }
  apply (IH (S a) _ hb'); nn_simpl; try congruence; lia.
Qed.

(** X9.  When the dataset has more than [batchsize * batchsize] samples,
    [fit_batch] never returns on a network of at least one epoch: there
    are more batches than the [batchsize] slots of the loss buffer.  The
    network is not marked as fitted by that call. *)
Theorem NN_fit_batch_overflow
    (s : NN.t) (d : NN.Dataset) (b n : nat) (rest : list nat) :
  shape (NN.X d) = n :: rest ->
  0 < NN.epochs s -> 0 < b -> b * b < n ->
  is_ok (snd (NN.fit_batch s d b)) = false /\
  NN.is_fitted (fst (NN.fit_batch s d b)) = NN.is_fitted s.
Proof.
  intros Hx He Hb Hn.
  assert (R : is_ok (snd (NN.fit_batch s d b)) = false).
  { unfold NN.fit_batch, NN.getXy. rewrite Hx.
    destruct (n <? b); [ reflexivity | ].
    destruct (b =? 0); [ reflexivity | ].
    destruct (NN.epochs s) as [|e]; [ lia | ].
    cbn [seq NN.for_each].
    assert (E : is_ok (snd (NN.fit_batch_epoch (NN.X d) (NN.Y d) b (NN.ceil_div n b)
                              (NN.set_history (NN.set_dataset s d) []) 0)) = false).
    { unfold NN.fit_batch_epoch.
      pose proof (@batches_overflow (NN.X d) (NN.Y d) b (NN.ceil_div n b) 0
                    (NN.set_history_batch (NN.set_history (NN.set_dataset s d) [])
                                          (np_zeros [1; b]))
                    (np_zeros [1; b]) eq_refl eq_refl (Nat.le_0_l b)
                    (ceil_div_square Hb Hn)) as O.
      destruct (NN.for_each _ _ _) as [s2 [u|e']]; [ discriminate | reflexivity ]. }
    destruct (NN.fit_batch_epoch _ _ _ _ _ _) as [s1 [u|e']]; [ discriminate | ].
    reflexivity. }
  split; [ exact R | ].
  rewrite fit_batch_is_fitted, R, orb_false_r. reflexivity.
Qed.

(** X10.  The rows that [fit_batch] cuts out for its batches partition
    the dataset: batch [k] holds [min(batchsize, n - k * batchsize)] rows,
    at least one, and the batches glued in order are the dataset. *)
Theorem NN_fit_batch_chunks (x : ndarray A) (n b : nat) (rest : list nat) :
  shape x = n :: rest -> length (data x) = n * size_of rest -> 0 < b ->
  concat (map (fun batch => data_of (chunk_of x b batch)) (seq 0 (NN.ceil_div n b)))
  = data x /\
  forall batch, batch < NN.ceil_div n b ->
    shape_of (chunk_of x b batch) = Nat.min b (n - batch * b) :: rest /\
    0 < Nat.min b (n - batch * b).
Proof.
  intros Hs Hlen Hb. split.
  - rewrite (map_ext _ (fun i => firstn (b * size_of rest)
                                        (skipn (i * (b * size_of rest)) (data x)))).
    + rewrite concat_chunks. apply firstn_all2. rewrite Hlen.
      pose proof (ceil_div_covers n Hb). nia.
    + intros i. unfold chunk_of, slice_rows, data_of. rewrite Hs. cbn [data].
      rewrite <- (firstn_min_length (b * size_of rest)), length_skipn, Hlen.
      destruct (Nat.le_gt_cases n (i * b)) as [Hi|Hi].
      * rewrite (Nat.min_r (i * b) n) by lia.
        rewrite (Nat.max_l n) by lia.
        rewrite Nat.sub_diag. cbn [Nat.mul firstn].
        replace (n * size_of rest - i * (b * size_of rest)) with 0 by nia.
        rewrite Nat.min_0_r. reflexivity.
      * rewrite (Nat.min_l (i * b) n) by lia.
        rewrite (Nat.max_r (i * b)) by lia.
        f_equal; [ | f_equal; lia ].
        destruct (Nat.le_gt_cases ((i + 1) * b) n) as [Hj|Hj].
        -- rewrite (Nat.min_l ((i + 1) * b)) by lia. nia.
        -- rewrite (Nat.min_r ((i + 1) * b)) by lia. nia.
  - intros batch Hbatch. pose proof (ceil_div_batch n Hb Hbatch) as Hlo.
    unfold chunk_of, slice_rows, shape_of. rewrite Hs. cbn [shape].
    split; [ f_equal | ]; lia.
Qed.

End HistoryProperties.

(** ** MaxPooling2D: selection and routing *)

Lemma nth_map_seq {T : Type} (g : nat -> T) (n k : nat) (d : T) :
  k < n -> nth k (map g (seq 0 n)) d = g k.
Proof.
  intros Hk. rewrite (nth_indep _ d (g 0)) by (rewrite length_map, length_seq; exact Hk).
  rewrite (map_nth g), seq_nth by exact Hk. reflexivity.
Qed.

Lemma flat_index_eq (P r c r' c' : nat) :
  c < P -> c' < P -> (r * P + c = r' * P + c' <-> r = r' /\ c = c').
Proof.
  intros Hc Hc'. split; [ | intros [-> ->]; reflexivity ].
  intros E. split.
  - rewrite <- (div_row r Hc), <- (div_row r' Hc'), E. reflexivity.
  - rewrite <- (mod_row r Hc), <- (mod_row r' Hc'), E. reflexivity.
Qed.

Section PoolingProperties.
Context {A : Type} `{Scalar A}.

Lemma set_nth_length (k : nat) (v : A) (l : list A) :
  length (MaxPooling2D.set_nth k v l) = length l.
Proof.
  revert k; induction l as [|x l IH]; intros [|k]; simpl; auto.
Qed.

Lemma set_nth_same (k : nat) (v d : A) (l : list A) :
  k < length l -> nth k (MaxPooling2D.set_nth k v l) d = v.
Proof.
  revert k; induction l as [|x l IH]; intros [|k] Hk; simpl in *; try lia; auto.
  apply IH. lia.
Qed.

Lemma set_nth_other (k j : nat) (v d : A) (l : list A) :
  j <> k -> nth j (MaxPooling2D.set_nth k v l) d = nth j l d.
Proof.
  revert k j; induction l as [|x l IH]; intros [|k] [|j] Hj; simpl; auto; try lia.
Qed.

(** The running best of [argmax] is never below an element already
    seen. *)
Lemma argmax_fold (f : nat -> A) :
  strict_weak_order sltb ->
  forall l best,
    let res := fold_left (fun b r => if sltb (f b) (f r) then r else b) l best in
    (res = best \/ In res l) /\
    sltb (f res) (f best) = false /\
    forall r, In r l -> sltb (f res) (f r) = false.
Proof.
  intros (Irr & Tr & NTr). induction l as [|x l IH]; intros best; cbn [fold_left].
  - cbv zeta. repeat split; auto. intros r [].
  - cbv zeta in *.
    destruct (sltb (f best) (f x)) eqn:E.
    + destruct (IH x) as (Hin & Hx & Hl). repeat split.
      * destruct Hin as [-> | Hin]; right; [ left | right ]; auto.
      * destruct (sltb (f (fold_left _ l x)) (f best)) eqn:E2; [ | reflexivity ].
        rewrite (Tr _ _ _ E2 E) in Hx. discriminate.
      * intros r [<- | Hr]; auto.
    + destruct (IH best) as (Hin & Hb & Hl). repeat split.
      * destruct Hin as [-> | Hin]; [ left | right; right ]; auto.
      * exact Hb.
      * intros r [<- | Hr]; [ apply (NTr _ _ _ Hb E) | auto ].
Qed.

Lemma argmax_col_maximum (a : ndarray A) (K c : nat) :
  strict_weak_order sltb -> 0 < K ->
  MaxPooling2D.argmax_col a K c < K /\
  forall r, r < K ->
    sltb (at2 a (MaxPooling2D.argmax_col a K c) c) (at2 a r c) = false.
Proof.
  intros Ho HK. unfold MaxPooling2D.argmax_col.
  destruct (argmax_fold (fun r => at2 a r c) Ho (seq 1 (K - 1)) 0) as (Hin & H0 & Hl).
  cbv zeta in *. split.
  - destruct Hin as [-> | Hin]; [ exact HK | apply in_seq in Hin; lia ].
  - intros [|r] Hr; [ exact H0 | ]. apply Hl, in_seq. lia.
Qed.

(** X11.  On a column matrix with at least one row, under a comparison
    that orders the values, [pool] returns for every column a row index
    within the matrix, the value at that row, and no value of the column
    is greater than it. *)
Theorem MaxPooling2D_pool_maximum (X_col : ndarray A) (K P : nat) :
  strict_weak_order sltb ->
  shape X_col = [K; P] -> 0 < K ->
  exists out max_idx,
    MaxPooling2D.pool X_col = Ok (out, max_idx) /\
    shape out = [P] /\ length max_idx = P /\
    forall c, c < P ->
      nth c max_idx 0 < K /\
      item out c = at2 X_col (nth c max_idx 0) c /\
      forall r, r < K -> sltb (at2 X_col (nth c max_idx 0) c) (at2 X_col r c) = false.
Proof.
  intros Ho Hs HK. unfold MaxPooling2D.pool. rewrite Hs.
  destruct (Nat.eqb_spec K 0); [ lia | ].
  do 2 eexists. split; [ reflexivity | ].
  split; [ reflexivity | ]. split; [ rewrite length_map, length_seq; reflexivity | ].
  intros c Hc. unfold item; cbn [data].
  rewrite !nth_map_seq by exact Hc.
  destruct (argmax_col_maximum X_col c Ho HK) as (Hlt & Hmax).
  repeat split; assumption.
Qed.

Lemma assign2_steps (dX dout : ndarray A) (idx : list nat) (K P : nat) :
  shape dX = [K; P] -> length (data dX) = K * P ->
  (forall c, c < P -> nth c idx 0 < K) ->
  forall m, m <= P ->
  exists g,
    fold_left MaxPooling2D.assign2
              (map (fun k => (nth k idx 0, k, item dout k)) (seq 0 m)) (Ok dX) = Ok g /\
    shape g = [K; P] /\ length (data g) = K * P /\
    forall r c, r < K -> c < P ->
      at2 g r c = if (c <? m) && (r =? nth c idx 0) then item dout c else at2 dX r c.
Proof.
  intros Hs Hlen Hidx. induction m as [|m IH]; intros Hm.
  - exists dX. cbn. repeat split; auto.
  - destruct IH as (g & Eg & Sg & Lg & Vg); [ lia | ].
    rewrite seq_S, map_app, fold_left_app, Eg. cbn [Nat.add map fold_left].
    unfold MaxPooling2D.assign2 at 1. cbn [bind]. rewrite Sg.
    destruct (Nat.ltb_spec (nth m idx 0) K) as [Hk|Hk]; [ | specialize (Hidx m); lia ].
    destruct (Nat.ltb_spec m P); [ | lia ]. cbn [andb].
    eexists. split; [ reflexivity | ]. cbn [shape data].
    split; [ reflexivity | ]. split; [ rewrite set_nth_length; exact Lg | ].
    intros r c Hr Hc. unfold at2 at 1, item at 1. cbn [shape data nth].
    destruct (Nat.eq_dec (r * P + c) (nth m idx 0 * P + m)) as [E|E].
    + rewrite E, set_nth_same by (rewrite Lg; apply index_lt; assumption).
      apply flat_index_eq in E as [-> ->]; try assumption.
      destruct (Nat.ltb_spec m (S m)); [ | lia ]. rewrite Nat.eqb_refl. reflexivity.
    + rewrite set_nth_other by exact E.
      specialize (Vg r c Hr Hc). unfold at2 at 1, item at 1 in Vg.
      rewrite Sg in Vg. cbn [nth] in Vg. rewrite Vg.
      destruct (Nat.eqb_spec r (nth c idx 0)) as [Er|Er];
        [ | rewrite !andb_false_r; reflexivity ].
      rewrite !andb_true_r.
      destruct (Nat.ltb_spec c m), (Nat.ltb_spec c (S m)); try reflexivity; try lia.
      assert (c = m) by lia. subst. contradiction E. reflexivity.
Qed.

(** X12.  Given one row index per column and one gradient value per
    column, [dpool] writes each value at the indexed row of its column and
    leaves every other entry as it was; on the zero matrix that
    [Pooling2D.backward] passes, every entry outside the indexed rows is
    therefore zero. *)
Theorem MaxPooling2D_dpool_routes
    (dX dout : ndarray A) (pool_cache : list nat) (K P : nat) :
  shape dX = [K; P] -> length (data dX) = K * P ->
  length pool_cache = P -> size_of (shape dout) = P ->
  (forall c, c < P -> nth c pool_cache 0 < K) ->
  exists g,
    MaxPooling2D.dpool dX dout pool_cache = Ok g /\ shape g = [K; P] /\
    (forall r c, r < K -> c < P ->
       at2 g r c = if r =? nth c pool_cache 0 then item dout c else at2 dX r c) /\
    (dX = np_zeros [K; P] ->
     forall r c, r < K -> c < P -> r <> nth c pool_cache 0 -> at2 g r c = szero).
Proof.
  intros Hs Hlen Hp Hq Hidx. unfold MaxPooling2D.dpool. rewrite Hp, Hq.
  rewrite Nat.eqb_refl. cbn [orb]. rewrite Nat.max_id.
  rewrite (map_ext_in _ (fun k => (nth k pool_cache 0, k, item dout k))).
  - destruct (assign2_steps dX dout pool_cache Hs Hlen Hidx (Nat.le_refl P))
      as (g & Eg & Sg & _ & Vg).
    exists g. split; [ exact Eg | ]. split; [ exact Sg | ].
    assert (V : forall r c, r < K -> c < P ->
                at2 g r c = if r =? nth c pool_cache 0 then item dout c else at2 dX r c).
    { intros r c Hr Hc. rewrite (Vg r c Hr Hc).
      destruct (Nat.ltb_spec c P); [ reflexivity | lia ]. }
    split; [ exact V | ].
    intros -> r c Hr Hc Hne. rewrite (V r c Hr Hc).
    destruct (Nat.eqb_spec r (nth c pool_cache 0)); [ contradiction | ].
    unfold np_zeros. rewrite at2_tabulate by assumption. reflexivity.
  - intros k Hk. apply in_seq in Hk.
    rewrite (read_axis (d := P) (i := k)) by lia. reflexivity.
Qed.

End PoolingProperties.

(** * Properties of the utilities *)

(** ** label_gen *)

Lemma NoDup_map_injective {T U : Type} (f : T -> U) (l : list T) :
  (forall x y, f x = f y -> x = y) -> NoDup l -> NoDup (map f l).
Proof.
  intros Hf. induction 1 as [|x l Hx Hl IH]; simpl; constructor; auto.
  intros Hin. apply in_map_iff in Hin as (y & E & Hy).
  apply Hf in E. subst. contradiction.
Qed.

Lemma NoDup_flat_map {T U : Type} (f : T -> list U) (l : list T) :
  NoDup l ->
  (forall x, In x l -> NoDup (f x)) ->
  (forall x y z, In x l -> In y l -> x <> y -> In z (f x) -> ~ In z (f y)) ->
  NoDup (flat_map f l).
Proof.
  induction 1 as [|x l Hx Hl IH]; intros Hf Hd; simpl; [ constructor | ].
  apply NoDup_app.
  - apply Hf. left; reflexivity.
  - apply IH.
    + intros y Hy. apply Hf. right; exact Hy.
    + intros a b z Ha Hb. apply Hd; right; assumption.
  - intros z Hz Hin. apply in_flat_map in Hin as (y & Hy & Hzy).
    apply (Hd x y z); auto.
    + left; reflexivity.
    + right; exact Hy.
    + intros ->. contradiction.
Qed.

Lemma NoDup_firstn {T : Type} (n : nat) (l : list T) : NoDup l -> NoDup (firstn n l).
Proof.
  intros Hl. rewrite <- (firstn_skipn n l) in Hl.
  apply NoDup_app_remove_r in Hl. exact Hl.
Qed.

Lemma in_firstn {T : Type} (n : nat) (l : list T) (x : T) :
  In x (firstn n l) -> In x l.
Proof.
  intros Hx. rewrite <- (firstn_skipn n l). apply in_or_app. left; exact Hx.
Qed.

Lemma firstn_app_enough {T : Type} (n : nat) (l extra : list T) :
  n <= length l -> firstn n (l ++ extra) = firstn n l.
Proof.
  intros Hn. rewrite firstn_app.
  replace (n - length l) with 0 by lia. cbn [firstn]. apply app_nil_r.
Qed.

Lemma ALPHA_NoDup : NoDup Util.ALPHA.
Proof.
  unfold Util.ALPHA. cbn.
  repeat (constructor; [ cbn; intuition discriminate | ]). constructor.
Qed.

Lemma product_cons (size : nat) : exists w rest, Util.product size = w :: rest.
Proof.
  induction size as [|size (w & rest & E)]; [ do 2 eexists; reflexivity | ].
  cbn [Util.product]. unfold Util.ALPHA. cbn [String.list_ascii_of_string Util.Literal.letters flat_map].
  rewrite E. cbn [map app]. do 2 eexists; reflexivity.
Qed.

Lemma product_word_length (size : nat) (w : String.string) :
  In w (Util.product size) -> String.length w = size.
Proof.
  revert w; induction size as [|size IH]; intros w Hw.
  - destruct Hw as [<- | []]. reflexivity.
  - cbn [Util.product] in Hw. apply in_flat_map in Hw as (c & _ & Hw).
    apply in_map_iff in Hw as (w' & <- & Hw'). cbn. f_equal. apply IH, Hw'.
Qed.

Lemma product_letters (size : nat) (w : String.string) :
  In w (Util.product size) ->
  Forall (fun c => In c Util.ALPHA) (String.list_ascii_of_string w).
Proof.
  revert w; induction size as [|size IH]; intros w Hw.
  - destruct Hw as [<- | []]. constructor.
  - cbn [Util.product] in Hw. apply in_flat_map in Hw as (c & Hc & Hw).
    apply in_map_iff in Hw as (w' & <- & Hw'). cbn. constructor; auto.
Qed.

Lemma product_NoDup (size : nat) : NoDup (Util.product size).
Proof.
  induction size as [|size IH]; cbn [Util.product].
  - constructor; [ intros [] | constructor ].
  - apply NoDup_flat_map.
    + apply ALPHA_NoDup.
    + intros c _. apply NoDup_map_injective; [ | exact IH ].
      intros x y [= E]. exact E.
    + intros c c' z _ _ Hne Hz Hz'.
      apply in_map_iff in Hz as (w & <- & _).
      apply in_map_iff in Hz' as (w' & [= E _] & _). congruence.
Qed.

Lemma stream_NoDup (a k : nat) : NoDup (flat_map Util.product (seq a k)).
Proof.
  apply NoDup_flat_map.
  - apply seq_NoDup.
  - intros size _. apply product_NoDup.
  - intros x y z _ _ Hne Hx Hy.
    apply product_word_length in Hx, Hy. congruence.
Qed.

Lemma stream_length (a k : nat) : k <= length (flat_map Util.product (seq a k)).
Proof.
  revert a; induction k as [|k IH]; intros a; [ cbn; lia | ].
  cbn [seq flat_map]. rewrite length_app.
  destruct (product_cons a) as (w & rest & ->). specialize (IH (S a)). cbn [length]. lia.
Qed.

(** The words [gen] returns are the words of the current size that are
    left, then all words of the next size, and so on. *)
Lemma gen_list_stream (n size : nat) (rem : list String.string) :
  Util.gen_list n (size, rem)
  = firstn n (rem ++ flat_map Util.product (seq (S size) n)).
Proof.
  revert size rem; induction n as [|n IH]; intros size rem; [ reflexivity | ].
  cbn [Util.gen_list Util.next]. destruct rem as [|w rem].
  - destruct (product_cons (S size)) as (w & rest & E). rewrite E.
    rewrite IH. cbn [app seq flat_map]. rewrite E. reflexivity.
  - rewrite IH. cbn [app firstn]. f_equal.
    rewrite seq_S, flat_map_app, app_assoc.
    symmetry. apply firstn_app_enough.
    rewrite length_app. pose proof (stream_length (S size) n). lia.
Qed.

(** X13.  [label_gen(n)] returns exactly [n] labels, no two of them
    equal; every label is a non-empty word over [ALPHA], which does not
    contain the letter Y. *)
Theorem label_gen_distinct (n : nat) :
  length (Util.label_gen n) = n /\
  NoDup (Util.label_gen n) /\
  (forall w, In w (Util.label_gen n) ->
     w <> String.EmptyString /\
     Forall (fun c => In c Util.ALPHA) (String.list_ascii_of_string w)) /\
  ~ In (Ascii.ascii_of_nat 89) Util.ALPHA.
Proof.
  unfold Util.label_gen, Util._iter_all_strings. rewrite gen_list_stream.
  change (Util.product 1 ++ flat_map Util.product (seq 2 n))
    with (flat_map Util.product (seq 1 (S n))).
  split; [ | split; [ | split ] ].
  - rewrite length_firstn. pose proof (stream_length 1 (S n)). lia.
  - apply NoDup_firstn, stream_NoDup.
  - intros w Hw. apply in_firstn, in_flat_map in Hw as (size & Hs & Hw). split.
    + intros ->. apply product_word_length in Hw. apply in_seq in Hs. cbn in Hw. lia.
    + apply (product_letters _ _ Hw).
  - unfold Util.ALPHA. cbn. intuition discriminate.
Qed.

(** ** minibatch and train_test_split *)

Lemma slice_bound_le (k : Z) (len : nat) : Util.slice_bound k len <= len.
Proof. unfold Util.slice_bound. destruct (Z.ltb_spec k 0); lia. Qed.

Lemma slice_bound_id (k len : nat) : k <= len -> Util.slice_bound (Z.of_nat k) len = k.
Proof.
  intros Hk. unfold Util.slice_bound.
  destruct (Z.ltb_spec (Z.of_nat k) 0); lia.
Qed.

Section SplitProperties.
Context {A : Type} `{Scalar A}.

(** X14.  For a positive batch size, [minibatch] yields
    [ceil(N / batchsize)] batches; batch [k] has
    [min(batchsize, N - k * batchsize)] indices; and the batches glued in
    order are the index array, so that every sample index from 0 to
    [N - 1] is in exactly one batch.  Without shuffling they are
    0, 1, ..., N - 1 in order.  A batch size of zero raises a division
    error. *)
Theorem minibatch_partition
    (X : ndarray A) (N b : nat) (rest : list nat) (shuffle : bool)
    (shuffle_ix : list nat -> list nat) :
  shape X = N :: rest ->
  Permutation (shuffle_ix (seq 0 N)) (seq 0 N) ->
  Util.minibatch X 0 shuffle shuffle_ix = Raise ZeroDivisionError /\
  (0 < b ->
   exists batches,
     Util.minibatch X b shuffle shuffle_ix = Ok batches /\
     length batches = NN.ceil_div N b /\
     (forall k, k < length batches ->
        length (nth k batches []) = Nat.min b (N - k * b)) /\
     Permutation (concat batches) (seq 0 N) /\
     (shuffle = false -> concat batches = seq 0 N)).
Proof.
  intros Hs Hperm. unfold Util.minibatch. rewrite Hs. split; [ reflexivity | ].
  intros Hb. destruct (Nat.eqb_spec b 0); [ lia | ].
  set (ix := if shuffle then shuffle_ix (seq 0 N) else seq 0 N).
  assert (Hix : Permutation ix (seq 0 N)) by (subst ix; destruct shuffle; auto).
  assert (Hlen : length ix = N)
    by (rewrite (Permutation_length Hix); apply length_seq).
  assert (Hsl : forall i, Util.slice ix (i * b) ((i + 1) * b) = firstn b (skipn (i * b) ix)).
  { intros i. unfold Util.slice. f_equal. lia. }
  eexists. split; [ reflexivity | ].
  assert (Hcat : concat (map (fun i => Util.slice ix (i * b) ((i + 1) * b))
                             (seq 0 (NN.ceil_div N b))) = ix).
  { rewrite (map_ext _ _ Hsl), concat_chunks. apply firstn_all2.
    rewrite Hlen. apply ceil_div_covers, Hb. }
  split; [ rewrite length_map, length_seq; reflexivity | ].
  split; [ | split ].
  - intros k Hk. rewrite length_map, length_seq in Hk.
    rewrite (nth_indep _ [] (Util.slice ix (0 * b) ((0 + 1) * b)))
      by (rewrite length_map, length_seq; exact Hk).
    rewrite (map_nth (fun i => Util.slice ix (i * b) ((i + 1) * b))), seq_nth by exact Hk.
    rewrite Hsl, length_firstn, length_skipn, Hlen. reflexivity.
  - rewrite Hcat. exact Hix.
  - intros ->. rewrite Hcat. reflexivity.
Qed.

Lemma take_rows_ok (a : ndarray A) (n : nat) (rest idx : list nat) :
  shape a = n :: rest -> (forall i, In i idx -> i < n) ->
  Util.take_rows a idx = Ok (NDArray (length idx :: rest) (flat_map (Util.row_of a) idx)).
Proof.
  intros Hs Hidx. unfold Util.take_rows. rewrite Hs.
  replace (forallb (fun i => i <? n) idx) with true; [ reflexivity | ].
  symmetry. apply forallb_forall. intros i Hi. apply Nat.ltb_lt. auto.
Qed.

(** X15.  When the shuffle permutes the sample indices and the targets
    have at least as many rows as the features: if [int(split * size)],
    computed on floats, raises, so does [train_test_split]; otherwise it
    returns two datasets that share the samples out: the rows of the
    training features followed by the rows of the test features are the
    rows of [X] in the shuffled order, the target rows follow the same
    order, no sample is lost or repeated, and both datasets carry the
    names of the original.  The training set has the [k] rows that the
    slice bound [int(split * size)] selects out of [size]: that many
    when the number is between 0 and [size]. *)
Theorem train_test_split_partition
    {Names Name : Type} (dataset : @Util.Dataset A Names Name) (split : Util.float)
    (shuffle : list nat -> list nat) (size size' : nat) (rx ry : list nat) :
  shape (Util.X dataset) = size :: rx ->
  shape (Util.Y dataset) = size' :: ry -> size <= size' ->
  Permutation (shuffle (seq 0 size)) (seq 0 size) ->
  let arr := shuffle (seq 0 size) in
  match Util.idx_split_of split size with
  | Raise e => Util.train_test_split dataset split shuffle = Raise e
  | Ok idx_split =>
      let k := Util.slice_bound idx_split size in
      exists train test,
        Util.train_test_split dataset split shuffle = Ok (train, test) /\
        k <= size /\
        (forall m, m <= size -> idx_split = Z.of_nat m -> k = m) /\
        shape (Util.X train) = k :: rx /\ shape (Util.X test) = (size - k) :: rx /\
        shape (Util.Y train) = k :: ry /\ shape (Util.Y test) = (size - k) :: ry /\
        data (Util.X train) ++ data (Util.X test)
        = flat_map (Util.row_of (Util.X dataset)) arr /\
        data (Util.Y train) ++ data (Util.Y test)
        = flat_map (Util.row_of (Util.Y dataset)) arr /\
        Util.xnames train = Util.xnames dataset /\
        Util.yname train = Util.yname dataset /\
        Util.xnames test = Util.xnames dataset /\
        Util.yname test = Util.yname dataset
  end.
Proof.
  intros HX HY Hsz Hperm arr.
  assert (Hlen : length arr = size)
    by (subst arr; rewrite (Permutation_length Hperm); apply length_seq).
  assert (Hin : forall i, In i arr -> i < size).
  { intros i Hi. apply (Permutation_in _ Hperm), in_seq in Hi. lia. }
  unfold Util.train_test_split. rewrite HX.
  destruct (Util.idx_split_of split size) as [idx_split|e]; [ | reflexivity ].
  cbn [bind]. fold arr. rewrite Hlen.
  set (k := Util.slice_bound idx_split size).
  assert (Hk : k <= size) by apply slice_bound_le.
  assert (Hm : forall m, m <= size -> idx_split = Z.of_nat m -> k = m).
  { intros m Hle Em. subst k. rewrite Em. apply slice_bound_id, Hle. }
  rewrite (take_rows_ok (Util.X dataset) (firstn k arr) HX)
    by (intros i Hi; apply Hin, (in_firstn _ _ _ Hi)).
  rewrite (take_rows_ok (Util.Y dataset) (firstn k arr) HY)
    by (intros i Hi; apply in_firstn, Hin in Hi; lia).
  assert (Hskip : forall i, In i (skipn k arr) -> In i arr).
  { intros i Hi. rewrite <- (firstn_skipn k arr). apply in_or_app. right; exact Hi. }
  rewrite (take_rows_ok (Util.X dataset) (skipn k arr) HX)
    by (intros i Hi; apply Hin, Hskip, Hi).
  rewrite (take_rows_ok (Util.Y dataset) (skipn k arr) HY)
    by (intros i Hi; apply Hskip, Hin in Hi; lia).
  cbn [bind]. do 2 eexists. split; [ reflexivity | ].
  cbn [Util.X Util.Y Util.xnames Util.yname shape data].
  rewrite length_firstn, length_skipn, Hlen, Nat.min_l by exact Hk.
  rewrite <- !flat_map_app, firstn_skipn.
  repeat split; auto.
Qed.

End SplitProperties.

(** ** majority *)

Section VoteProperties.
Context {V : Type} (V_eq_dec : forall x y : V, {x = y} + {x <> y}).

Lemma py_max_fold {T : Type} (key : T -> nat) (l : list T) (best : T) :
  let res := fold_left (fun b y => if key b <? key y then y else b) l best in
  (res = best \/ In res l) /\ key best <= key res /\
  forall y, In y l -> key y <= key res.
Proof.
  revert best; induction l as [|x l IH]; intros best; cbn [fold_left]; cbv zeta.
  - repeat split; auto. intros y [].
  - destruct (Nat.ltb_spec (key best) (key x)) as [E|E].
    + destruct (IH x) as (Hin & Hx & Hl). cbv zeta in *. repeat split.
      * destruct Hin as [-> | Hin]; right; [ left | right ]; auto.
      * lia.
      * intros y [<- | Hy]; auto.
    + destruct (IH best) as (Hin & Hb & Hl). cbv zeta in *. repeat split.
      * destruct Hin as [-> | Hin]; [ left | right; right ]; auto.
      * exact Hb.
      * intros y [<- | Hy]; [ lia | auto ].
Qed.

(** X16.  Whatever the order in which the set of the values is iterated,
    [majority] raises on an empty list and otherwise returns one of the
    values, and no value occurs more often than the one returned; when one
    value occurs more often than every other, it is the one returned. *)
Theorem majority_most_frequent (set_order : list V -> list V) (values : list V) :
  (forall v, In v (set_order values) <-> In v values) ->
  match Ensemble.majority V_eq_dec set_order values with
  | None => values = []
  | Some winner =>
      In winner values /\
      (forall v, count_occ V_eq_dec values v <= count_occ V_eq_dec values winner) /\
      (forall w, (forall v, v <> w ->
                    count_occ V_eq_dec values v < count_occ V_eq_dec values w) ->
                 winner = w)
  end.
Proof.
  intros Hset. unfold Ensemble.majority, Ensemble.py_max.
  destruct (set_order values) as [|x rest] eqn:E.
  - destruct values as [|v values]; [ reflexivity | ].
    exfalso. apply (proj2 (Hset v)). left; reflexivity.
  - destruct (py_max_fold (count_occ V_eq_dec values) rest x) as (Hin & Hx & Hl).
    cbv zeta in *.
    set (winner := fold_left _ rest x) in *.
    assert (Hw : In winner values).
    { apply Hset. destruct Hin as [-> | Hin]; [ left | right ]; auto. }
    assert (Hmax : forall v, count_occ V_eq_dec values v
                             <= count_occ V_eq_dec values winner).
    { intros v. destruct (in_dec V_eq_dec v values) as [Hv|Hv].
      - apply Hset in Hv. destruct Hv as [<- | Hv]; auto.
      - apply (count_occ_not_In V_eq_dec) in Hv. rewrite Hv. lia. }
    repeat split; auto.
    intros w Hmode. destruct (V_eq_dec winner w) as [|Hne]; [ assumption | ].
    specialize (Hmode winner Hne). specialize (Hmax w). lia.
Qed.

End VoteProperties.

(** ** to_categorical *)

Lemma wrap_index_lt (k : Z) (C col : nat) : Util.wrap_index k C = Some col -> col < C.
Proof.
  unfold Util.wrap_index.
  destruct (Z.leb_spec 0 k), (Z.ltb_spec k (Z.of_nat C)); cbn [andb];
    try (intros [= <-]; lia);
    destruct (Z.leb_spec (- Z.of_nat C) k), (Z.ltb_spec k 0); cbn [andb];
    try discriminate; intros [= <-]; lia.
Qed.

Lemma wrap_index_none (k : Z) (C : nat) :
  Util.wrap_index k C = None <-> (Z.of_nat C <= k \/ k < - Z.of_nat C)%Z.
Proof.
  unfold Util.wrap_index.
  destruct (Z.leb_spec 0 k), (Z.ltb_spec k (Z.of_nat C)); cbn [andb];
    try (split; [ discriminate | lia ]);
    destruct (Z.leb_spec (- Z.of_nat C) k), (Z.ltb_spec k 0); cbn [andb];
    split; try discriminate; try lia; auto.
Qed.

Lemma wrap_index_label (k : Z) (C : nat) :
  (0 <= k < Z.of_nat C)%Z -> Util.wrap_index k C = Some (Z.to_nat k).
Proof.
  intros Hk. unfold Util.wrap_index.
  destruct (Z.leb_spec 0 k), (Z.ltb_spec k (Z.of_nat C)); try lia. reflexivity.
Qed.

Lemma size_of_app_last (l : list nat) (c : nat) : size_of (l ++ [c]) = size_of l * c.
Proof.
  induction l as [|d l IH]; [ unfold size_of; simpl; lia | ].
  cbn [app]. rewrite !size_of_cons, IH. lia.
Qed.

Lemma categorical_shape_size (sh : list nat) :
  size_of (Util.categorical_shape sh) = size_of sh.
Proof.
  unfold Util.categorical_shape.
  destruct ((1 <? length sh) && (last sh 0 =? 1)) eqn:E; [ | reflexivity ].
  apply andb_true_iff in E as [E1 E2].
  apply Nat.ltb_lt in E1. apply Nat.eqb_eq in E2.
  assert (Hne : sh <> []) by (intros ->; cbn in E1; lia).
  rewrite (app_removelast_last 0 Hne) at 2.
  rewrite size_of_app_last, E2. lia.
Qed.

Lemma fold_max_bounds (l : list Z) (y0 : Z) :
  (y0 <= fold_left Z.max l y0)%Z /\
  (forall y, In y l -> (y <= fold_left Z.max l y0)%Z) /\
  (fold_left Z.max l y0 = y0 \/ In (fold_left Z.max l y0) l).
Proof.
  revert y0; induction l as [|x l IH]; intros y0; cbn [fold_left].
  - repeat split; auto; try lia. intros y [].
  - destruct (IH (Z.max y0 x)) as (H0 & Hl & Hin). repeat split.
    + lia.
    + intros y [<- | Hy]; [ lia | auto ].
    + destruct Hin as [E | Hin]; [ | right; right; exact Hin ].
      destruct (Z.max_spec y0 x) as [[_ Em] | [_ Em]]; rewrite Em in E;
        [ right; left | left ]; congruence.
Qed.

Section CategoricalProperties.
Context {A : Type} `{Scalar A}.

Lemma set_one_raise (C : nat) (e : py_exn) (l : list (nat * Z)) :
  fold_left (Util.set_one C) l (Raise e) = Raise e.
Proof. induction l as [|p l IH]; [ reflexivity | exact IH ]. Qed.

(** The cells after the assignments of the rows [a .. a + length l - 1]. *)
Lemma set_one_fold (C n : nat) :
  forall (l : list Z) (a : nat) (cells : list A),
    length cells = n * C -> a + length l <= n ->
    (forall j, j < length l -> Util.wrap_index (nth j l 0%Z) C <> None) ->
    exists cells',
      fold_left (Util.set_one C) (combine (seq a (length l)) l) (Ok cells) = Ok cells' /\
      length cells' = n * C /\
      forall i j, i < n -> j < C ->
        nth (i * C + j) cells' szero
        = if (a <=? i) && (i <? a + length l)
          then match Util.wrap_index (nth (i - a) l 0%Z) C with
               | Some col => if j =? col then sof_nat 1 else nth (i * C + j) cells szero
               | None => nth (i * C + j) cells szero
               end
          else nth (i * C + j) cells szero.
Proof.
  induction l as [|y l IH]; intros a cells Hlen Ha Hw.
  - exists cells. cbn [length seq combine fold_left]. repeat split; auto.
    intros i j _ _. destruct (Nat.leb_spec a i), (Nat.ltb_spec i (a + 0)); try reflexivity; lia.
  - cbn [length seq combine fold_left] in *.
    unfold Util.set_one at 2. cbn [bind fst snd].
    destruct (Util.wrap_index y C) as [col|] eqn:Ey;
      [ | exfalso; apply (Hw 0); [ lia | exact Ey ] ].
    pose proof (wrap_index_lt _ _ Ey) as Hcol.
    destruct (IH (S a) (MaxPooling2D.set_nth (a * C + col) (sof_nat 1) cells))
      as (cells' & E & L & V).
    + rewrite set_nth_length; exact Hlen.
    + lia.
    + intros j Hj. apply (Hw (S j)). lia.
    + exists cells'. split; [ exact E | ]. split; [ exact L | ].
      intros i j Hi Hj. rewrite (V i j Hi Hj).
      destruct (Nat.eq_dec i a) as [->|Hia].
      * destruct (Nat.leb_spec (S a) a); [ lia | ]. cbn [andb].
        destruct (Nat.leb_spec a a); [ | lia ].
        destruct (Nat.ltb_spec a (a + S (length l))); [ | lia ]. cbn [andb].
        rewrite Nat.sub_diag. cbn [nth]. rewrite Ey.
        destruct (Nat.eqb_spec j col) as [->|Hj'].
        -- apply set_nth_same. rewrite Hlen. apply index_lt; lia.
        -- apply set_nth_other. intros E'. apply flat_index_eq in E'; [ | lia | lia ].
           lia.
      * assert (Hother : forall d,
                   nth (i * C + j) (MaxPooling2D.set_nth (a * C + col) (sof_nat 1) cells) d
                   = nth (i * C + j) cells d).
        { intros d. apply set_nth_other. intros E'.
          apply flat_index_eq in E'; [ | lia | lia ]. lia. }
        rewrite !Hother.
        destruct (Nat.leb_spec (S a) i), (Nat.ltb_spec i (S a + length l)); cbn [andb];
          destruct (Nat.leb_spec a i), (Nat.ltb_spec i (a + S (length l))); cbn [andb];
          try lia; try reflexivity.
        replace (i - a) with (S (i - S a)) by lia. reflexivity.
Qed.

(** The array [to_categorical] returns, cell by cell. *)
Lemma to_categorical_cells
    (y : ndarray Z) (num_classes : option nat) (C : nat) :
  length (data y) = size_of (shape y) ->
  Util.resolve_classes (data y) num_classes = Ok (Z.of_nat C) ->
  (forall i, i < size_of (shape y) -> Util.wrap_index (nth i (data y) 0%Z) C <> None) ->
  exists out,
    Util.to_categorical y num_classes = Ok out /\
    shape out = Util.categorical_shape (shape y) ++ [C] /\
    forall i j, i < size_of (shape y) -> j < C ->
      item out (i * C + j)
      = match Util.wrap_index (nth i (data y) 0%Z) C with
        | Some col => if j =? col then sof_nat 1 else szero
        | None => szero
        end.
Proof.
  intros Hwf Hres Hw. unfold Util.to_categorical.
  set (n := size_of (shape y)) in *.
  rewrite firstn_all2 by lia. rewrite Hres. cbn [bind].
  destruct (Z.ltb_spec (Z.of_nat C) 0); [ lia | ]. rewrite Nat2Z.id.
  destruct (@set_one_fold C n (data y) 0 (data (np_zeros [n; C])))
    as (cells & E & L & V).
  - unfold np_zeros, tabulate; cbn [data].
    rewrite length_map, length_seq, size_of_2. reflexivity.
  - lia.
  - intros j Hj. apply Hw. lia.
  - rewrite Hwf in E. rewrite E. cbn [bind].
    rewrite reshape_dims. cbn [shape].
    rewrite size_of_app_last, categorical_shape_size, size_of_2, Nat.eqb_refl.
    eexists. split; [ reflexivity | ]. split; [ reflexivity | ].
    intros i j Hi Hj. unfold item; cbn [data]. rewrite (V i j Hi Hj).
    destruct (Nat.leb_spec 0 i); [ | lia ].
    destruct (Nat.ltb_spec i (0 + length (data y))); [ | lia ]. cbn [andb].
    rewrite Nat.sub_0_r.
    assert (Z0 : nth (i * C + j) (data (np_zeros [n; C])) szero = szero).
    { change (nth (i * C + j) (data (np_zeros [n; C])) szero)
        with (at2 (np_zeros [n; C]) i j).
      unfold np_zeros. rewrite at2_tabulate by assumption. reflexivity. }
    rewrite Z0. reflexivity.
Qed.

(** X17.  When every label selects a column, [to_categorical] returns an
    array of shape [input_shape + (num_classes,)], the input shape with a
    last axis of extent 1 dropped, whose row [i] holds 1 in the column
    selected by label [i] and 0 in every other column.  A label [k] from
    0 to [num_classes - 1] selects column [k]; a negative label down to
    [-num_classes] selects column [num_classes + k]. *)
Theorem to_categorical_one_hot
    (y : ndarray Z) (num_classes : option nat) (C : nat) :
  length (data y) = size_of (shape y) ->
  Util.resolve_classes (data y) num_classes = Ok (Z.of_nat C) ->
  (forall i, i < size_of (shape y) -> Util.wrap_index (nth i (data y) 0%Z) C <> None) ->
  exists out,
    Util.to_categorical y num_classes = Ok out /\
    shape out = Util.categorical_shape (shape y) ++ [C] /\
    forall i j, i < size_of (shape y) -> j < C ->
      item out (i * C + j)
      = match Util.wrap_index (nth i (data y) 0%Z) C with
        | Some col => if j =? col then sof_nat 1 else szero
        | None => szero
        end.
Proof. exact (@to_categorical_cells y num_classes C). Qed.

(** X18.  A label at or above [num_classes], or below [-num_classes],
    makes [to_categorical] raise an index error. *)
Theorem to_categorical_out_of_range
    (y : ndarray Z) (num_classes : option nat) (C i : nat) :
  length (data y) = size_of (shape y) ->
  Util.resolve_classes (data y) num_classes = Ok (Z.of_nat C) ->
  i < size_of (shape y) ->
  (Z.of_nat C <= nth i (data y) 0 \/ nth i (data y) 0 < - Z.of_nat C)%Z ->
  Util.to_categorical y num_classes = Raise IndexError.
Proof.
  intros Hwf Hres Hi Hbad. unfold Util.to_categorical.
  rewrite firstn_all2 by lia. rewrite Hres. cbn [bind].
  destruct (Z.ltb_spec (Z.of_nat C) 0); [ lia | ]. rewrite Nat2Z.id.
  assert (F : forall (l : list (nat * Z)) cells,
             (exists p, In p l /\ Util.wrap_index (snd p) C = None) ->
             fold_left (Util.set_one C) l (Ok cells) = Raise IndexError).
  { induction l as [|p l IH]; intros cells (q & Hq & Hn); [ destruct Hq | ].
    cbn [fold_left]. unfold Util.set_one at 2. cbn [bind].
    destruct (Util.wrap_index (snd p) C) as [col|] eqn:Ep.
    - apply IH. exists q. split; [ | exact Hn ].
      destruct Hq as [<- | Hq]; [ congruence | exact Hq ].
    - apply set_one_raise. }
  rewrite F; [ reflexivity | ].
  exists (nth i (combine (seq 0 (size_of (shape y))) (data y)) (0, 0%Z)). split.
  - apply nth_In. rewrite length_combine, length_seq. lia.
  - rewrite combine_nth by (rewrite length_seq; lia). cbn [snd].
    apply wrap_index_none. exact Hbad.
Qed.

(** X19.  Without [num_classes], the number of classes is the largest
    label plus one, so that non-negative labels are never out of range:
    the call returns, every label is below the number of classes and some
    label is the last class.  An empty label array raises. *)
Theorem to_categorical_default_classes (y : ndarray Z) :
  length (data y) = size_of (shape y) ->
  (forall i, i < size_of (shape y) -> (0 <= nth i (data y) 0)%Z) ->
  match data y with
  | [] => Util.to_categorical (A := A) y None = Raise NumpyError
  | _ :: _ =>
      exists C out,
        Util.to_categorical (A := A) y None = Ok out /\
        shape out = Util.categorical_shape (shape y) ++ [C] /\
        (forall i, i < size_of (shape y) -> (nth i (data y) 0 < Z.of_nat C)%Z) /\
        exists i, i < size_of (shape y) /\ (nth i (data y) 0 = Z.of_nat C - 1)%Z
  end.
Proof.
  intros Hwf Hpos. destruct (data y) as [|y0 l] eqn:Ed.
  - unfold Util.to_categorical. rewrite Ed. destruct (size_of (shape y)); reflexivity.
  - destruct (fold_max_bounds l y0) as (H0 & Hl & Hin).
    set (m := fold_left Z.max l y0) in *.
    assert (Hle : forall i, i < size_of (shape y) -> (nth i (y0 :: l) 0 <= m)%Z).
    { intros i Hi. rewrite <- Hwf in Hi.
      destruct (nth_In (y0 :: l) 0%Z Hi) as [<- | Hy]; auto. }
    assert (Hm0 : (0 <= m)%Z).
    { specialize (Hpos 0). specialize (Hle 0). rewrite <- Hwf in Hpos, Hle.
      cbn [length nth] in *. lia. }
    assert (Hres : Util.resolve_classes (y0 :: l) None = Ok (Z.of_nat (Z.to_nat (m + 1)))).
    { cbn [Util.resolve_classes]. fold m. f_equal. lia. }
    pose proof (@to_categorical_cells y None (Z.to_nat (m + 1))) as T.
    rewrite Ed in T. destruct T as (out & E & S & _).
    + exact Hwf.
    + exact Hres.
    + intros i Hi Hn. apply wrap_index_none in Hn.
      specialize (Hpos i Hi). specialize (Hle i Hi). lia.
    + exists (Z.to_nat (m + 1)), out. split; [ exact E | ]. split; [ exact S | ].
      split.
      * intros i Hi. specialize (Hle i Hi). lia.
      * assert (Hat : In m (y0 :: l)) by (destruct Hin as [-> | Hin]; [ left | right ]; auto).
        apply (In_nth _ _ 0%Z) in Hat as (i & Hi & Ei).
        exists i. split; [ rewrite <- Hwf; exact Hi | ]. rewrite Ei. lia.
Qed.

End CategoricalProperties.

(** ** Pooling2D.forward on a valid geometry *)

Lemma extent_out_extent (d size stride : nat) :
  size <= d -> 0 < stride ->
  MaxPooling2D.extent d size stride = Z.of_nat (Im2col.out_extent d size stride).
Proof.
  intros Hd Hs. unfold MaxPooling2D.extent, Im2col.out_extent.
  rewrite Z.quot_div_nonneg by lia.
  replace (Z.of_nat d - Z.of_nat size)%Z with (Z.of_nat (d - size)) by lia.
  rewrite <- Nat2Z.inj_div. lia.
Qed.

Lemma is_integer_extent_mod (d size stride : nat) :
  size <= d -> 0 < stride -> (d - size) mod stride = 0 ->
  MaxPooling2D.is_integer_extent d size stride = true.
Proof.
  intros Hd Hs Hm. unfold MaxPooling2D.is_integer_extent.
  replace (Z.of_nat d - Z.of_nat size)%Z with (Z.of_nat (d - size)) by lia.
  rewrite Z.rem_mod_nonneg by lia.
  rewrite <- Nat2Z.inj_mod, Hm. reflexivity.
Qed.

Section PoolingForward.
Context {A : Type} `{Scalar A}.

Lemma im2col_shape_unpadded (x : ndarray A) (n h w c fr fc : nat) (rest : list nat)
    (s : nat) :
  shape x = [n; h; w; c] -> 0 < s -> fr <= h -> fc <= w ->
  exists X_col,
    Im2col.im2col x (fr :: fc :: rest) (PadInt 0) s = Ok (X_col, (0, 0, 0, 0)) /\
    shape X_col = [fr * fc * c;
                   Im2col.out_extent h fr s * Im2col.out_extent w fc s * n].
Proof.
  intros Hx Hs Hr Hc. unfold Im2col.im2col. rewrite Hx.
  destruct (pad2D_amounts x (PadInt 0) [fr; fc] s Hx) as (X_pad & -> & _).
  cbn [bind pad_tuple]. rewrite !Nat.add_0_r.
  destruct (Nat.eqb_spec s 0); [ lia | ].
  destruct (Nat.ltb_spec h fr); [ lia | ].
  destruct (Nat.ltb_spec w fc); [ lia | ].
  cbn [orb]. eexists; split; reflexivity.
Qed.

(** X20.  With the column transform as the specification describes it:
    for a positive window and stride, a window that fits the image and
    extents [(dim - size) / stride + 1] that are integers, [forward] on a
    tensor of shape [(n, h, w, d)] returns a tensor of shape
    [(n, h_out, w_out, d)] and caches the input shape, a column matrix
    with one row per window cell and one column per window, channel and
    sample, and one maximum index per column. *)
Theorem Pooling2D_forward_shape
    (self : MaxPooling2D.t) (x : ndarray A) (n h w d : nat) :
  let size := MaxPooling2D.size self in
  let stride := MaxPooling2D.stride self in
  shape x = [n; h; w; d] ->
  0 < stride -> 0 < size -> size <= h -> size <= w ->
  (h - size) mod stride = 0 -> (w - size) mod stride = 0 ->
  let h_out := (h - size) / stride + 1 in
  let w_out := (w - size) / stride + 1 in
  exists out X_col max_idx,
    MaxPooling2D.forward self x
    = (MaxPooling2D.Build size stride (Some [n; h; w; d]) (Some X_col) (Some max_idx),
       Ok out) /\
    shape out = [n; h_out; w_out; d] /\
    shape X_col = [size * size * 1; h_out * w_out * (n * d)] /\
    length max_idx = h_out * w_out * (n * d).
Proof.
  intros size stride Hx Hs Hz Hh Hw Hmh Hmw h_out w_out.
  unfold MaxPooling2D.forward. fold size stride. rewrite Hx.
  destruct (Nat.eqb_spec stride 0); [ lia | ].
  rewrite (is_integer_extent_mod Hw Hs Hmw), (is_integer_extent_mod Hh Hs Hmh).
  cbn [negb orb].
  unfold transpose at 1. rewrite Hx.
  change (is_permutation [0; 3; 1; 2] (length [n; h; w; d])) with true.
  cbn [bind]. rewrite reshape_dims.
  replace (size_of [n * d; h; w; 1] =? size_of (shape (transpose_axes [0; 3; 1; 2] x)))
    with true
    by (symmetry; apply Nat.eqb_eq; unfold transpose_axes; cbn [shape]; rewrite Hx;
        unfold size_of; simpl; lia).
  cbn [bind].
  match goal with
  | |- context [Im2col.im2col ?xr _ _ _] =>
      destruct (@im2col_shape_unpadded xr (n * d) h w 1 size size [d; d] stride
                  eq_refl Hs Hh Hw) as (X_col & -> & HX)
  end.
  unfold MaxPooling2D.pool. rewrite HX.
  destruct (Nat.eqb_spec (size * size * 1) 0); [ nia | ].
  rewrite !extent_out_extent by assumption.
  unfold Im2col.out_extent in HX |- *. fold h_out w_out in HX |- *.
  change [Z.of_nat d; Z.of_nat h_out; Z.of_nat w_out; Z.of_nat n]
    with (dims_of [d; h_out; w_out; n]).
  rewrite reshape_dims. cbn [shape].
  replace (size_of [d; h_out; w_out; n] =? size_of [h_out * w_out * (n * d)]) with true
    by (symmetry; apply Nat.eqb_eq; unfold size_of; simpl; lia).
  cbn [bind]. unfold transpose. cbn [shape length].
  change (is_permutation [3; 1; 2; 0] 4) with true.
  do 3 eexists. split; [ reflexivity | ].
  split; [ reflexivity | ]. split; [ exact HX | ].
  rewrite length_map, length_seq. reflexivity.
Qed.

End PoolingForward.

(** ** The further properties on sample inputs *)

Lemma sltb_Q_lt (x y : Q) : sltb x y = true <-> (x < y)%Q.
Proof.
  cbn [sltb Scalar_Q]. rewrite negb_true_iff. split.
  - intros E. apply Qnot_le_lt. intros Hle. apply Qle_bool_iff in Hle. congruence.
  - intros Hlt. destruct (Qle_bool y x) eqn:E; [ | reflexivity ].
    apply Qle_bool_iff in E. exfalso. apply (Qlt_not_le _ _ Hlt E).
Qed.

Lemma sltb_Q_order : strict_weak_order (sltb (A := Q)).
Proof.
  assert (F : forall x y : Q, sltb x y = false <-> (y <= x)%Q).
  { intros x y. split.
    - intros E. apply Qnot_lt_le. intros Hlt. apply sltb_Q_lt in Hlt. congruence.
    - intros Hle. destruct (sltb x y) eqn:E; [ | reflexivity ].
      apply sltb_Q_lt in E. exfalso. apply (Qlt_not_le _ _ E Hle). }
  repeat split.
  - intros a. apply F, Qle_refl.
  - intros a b c Hab Hbc. apply sltb_Q_lt in Hab, Hbc. apply sltb_Q_lt.
    apply (Qlt_trans _ _ _ Hab Hbc).
  - intros a b c Hab Hbc. apply F in Hab, Hbc. apply F.
    apply (Qle_trans _ _ _ Hbc Hab).
Qed.

Lemma Dense_forward_affine_witness :
  exists out,
    snd (Dense.forward Sample.dense_2_1 (Sample.tensor [3; 2] [1; 2; 3; 4; 5; 6]%Z))
    = Ok out /\ shape out = [3; 1].
Proof.
  destruct (@Dense_forward_affine Q _ Sample.dense_2_1
              (Sample.tensor [3; 2] [1; 2; 3; 4; 5; 6]%Z) 3 2 1)
    as (out & E & S & _).
  - split; reflexivity.
  - reflexivity.
  - exists out. rewrite E. split; [ reflexivity | exact S ].
Defined.

Lemma Dense_backward_all_or_nothing_witness :
  fst (Dense.backward Sample.dense_2_1 (Sample.tensor [1; 3] [1; 1; 1]%Z) (1 # 10)%Q)
  = Sample.dense_2_1.
Proof.
  apply (@Dense_backward_all_or_nothing Q _ Sample.dense_2_1
           (Sample.tensor [1; 2] [3; 4]%Z) (Sample.tensor [1; 3] [1; 1; 1]%Z)
           (1 # 10)%Q 2 1 1 2 1 3).
  - split; reflexivity.
  - reflexivity.
  - reflexivity.
  - reflexivity.
  - vm_compute. reflexivity.
Defined.

Lemma Activation_chain_rule_witness :
  exists g,
    snd (Activation.backward
           (fst (Activation.forward (Activation.init (fun v : Q => v) (fun _ => 1%Q))
                                    (Sample.ones [2; 2])))
           (Sample.tensor [2; 2] [1; 2; 3; 4]%Z) (1 # 10)%Q) = Ok g /\
    shape g = [2; 2].
Proof.
  destruct (@Activation_chain_rule Q _ (Activation.init (fun v : Q => v) (fun _ => 1%Q))
              (Sample.ones [2; 2]) (Sample.tensor [2; 2] [1; 2; 3; 4]%Z) (1 # 10)%Q)
    as (_ & _ & g & E & S & _).
  - reflexivity.
  - reflexivity.
  - exists g. rewrite E. split; [ reflexivity | exact S ].
Defined.


Lemma NN_fit_batch_overflow_witness :
  is_ok (snd (NN.fit_batch Sample.plain_network Sample.six_samples 2)) = false.
Proof.
  apply (@NN_fit_batch_overflow Q _ Sample.plain_network Sample.six_samples 2 6 [1]).
  - reflexivity.
  - simpl; lia.
  - lia.
  - simpl; lia.
Defined.

Lemma NN_fit_batch_chunks_witness :
  concat (map (fun batch => data_of (chunk_of (NN.X Sample.six_samples) 4 batch))
              (seq 0 (NN.ceil_div 6 4)))
  = data (NN.X Sample.six_samples).
Proof.
  apply (@NN_fit_batch_chunks Q (NN.X Sample.six_samples) 6 4 [1]).
  - reflexivity.
  - reflexivity.
  - lia.
Defined.

Lemma MaxPooling2D_pool_maximum_witness :
  exists out max_idx,
    MaxPooling2D.pool (Sample.tensor [2; 2] [1; 5; 3; 2]%Z) = Ok (out, max_idx) /\
    shape out = [2] /\ length max_idx = 2.
Proof.
  destruct (@MaxPooling2D_pool_maximum Q _ (Sample.tensor [2; 2] [1; 5; 3; 2]%Z) 2 2)
    as (out & idx & E & S & L & _).
  - exact sltb_Q_order.
  - reflexivity.
  - lia.
  - exists out, idx. repeat split; assumption.
Defined.

Lemma MaxPooling2D_dpool_routes_witness :
  exists g,
    MaxPooling2D.dpool (np_zeros [2; 2]) (Sample.tensor [2] [7; 9]%Z) [1; 0] = Ok g /\
    shape g = [2; 2].
Proof.
  destruct (@MaxPooling2D_dpool_routes Q _ (np_zeros [2; 2]) (Sample.tensor [2] [7; 9]%Z)
              [1; 0] 2 2)
    as (g & E & S & _).
  - reflexivity.
  - reflexivity.
  - reflexivity.
  - reflexivity.
  - intros [|[|c]] Hc; simpl; lia.
  - exists g. split; assumption.
Defined.

Lemma minibatch_partition_witness :
  exists batches,
    Util.minibatch (Sample.ones [7; 1]) 3 true (@rev nat) = Ok batches /\
    length batches = 3 /\ Permutation (concat batches) (seq 0 7).
Proof.
  destruct (@minibatch_partition Q (Sample.ones [7; 1]) 7 3 [1] true (@rev nat))
    as (_ & P).
  - reflexivity.
  - apply Permutation_sym, Permutation_rev.
  - destruct P as (batches & E & L & _ & Hp & _); [ lia | ].
    exists batches. repeat split; assumption.
Defined.

(** [int(split * size)] follows the float product, not the exact one:
    0.29 is 0x1.28f5c28f5c28fp-2, and 0.29 * 100 gives 28; 0.3 is
    0x1.3333333333333p-2, and 0.3 * 10 gives 3; -0.5 * 10 gives -5, a
    bound counted from the end; a NaN raises. *)
Lemma idx_split_of_samples :
  Util.idx_split_of (SpecFloat.S754_finite false 5224175567749775 (-54)) 100
  = Ok 28%Z /\
  Util.idx_split_of (SpecFloat.S754_finite false 5404319552844595 (-54)) 10
  = Ok 3%Z /\
  Util.idx_split_of (SpecFloat.S754_finite true 4503599627370496 (-53)) 10
  = Ok (-5)%Z /\
  Util.idx_split_of SpecFloat.S754_nan 10 = Raise ValueError_nan.
Proof. repeat split; vm_compute; reflexivity. Qed.

(** The float 0.7 is 0x1.6666666666666p-1, that is
    6305039478318694 * 2^-53, and 0.7 * 90 is rounded to the float just
    below 63: of 90 samples, 62 go to the training set. *)
Lemma train_test_split_partition_witness :
  Util.idx_split_of (SpecFloat.S754_finite false 6305039478318694 (-53)) 90
  = Ok 62%Z /\
  exists train test,
    Util.train_test_split
      (Util.mkDataset (Sample.ones [90; 1]) (Sample.ones [90]) tt tt)
      (SpecFloat.S754_finite false 6305039478318694 (-53)) (@rev nat)
    = Ok (train, test) /\
    shape (Util.X train) = [62; 1] /\ shape (Util.X test) = [28; 1].
Proof.
  assert (E : Util.idx_split_of (SpecFloat.S754_finite false 6305039478318694 (-53)) 90
              = Ok 62%Z) by (vm_compute; reflexivity).
  split; [ exact E | ].
  pose proof (@train_test_split_partition Q unit unit
                (Util.mkDataset (Sample.ones [90; 1]) (Sample.ones [90]) tt tt)
                (SpecFloat.S754_finite false 6305039478318694 (-53)) (@rev nat)
                90 90 [1] [] eq_refl eq_refl (le_n 90)
                (Permutation_sym (Permutation_rev (seq 0 90)))) as T.
  cbv zeta in T. rewrite E in T.
  destruct T as (train & test & Et & _ & _ & S1 & S2 & _).
  exists train, test. repeat split; assumption.
Defined.

Lemma majority_most_frequent_witness :
  Ensemble.majority Nat.eq_dec (nodup Nat.eq_dec) [1; 2; 2; 3] = Some 2.
Proof.
  pose proof (@majority_most_frequent nat Nat.eq_dec (nodup Nat.eq_dec) [1; 2; 2; 3]
                (fun v => nodup_In Nat.eq_dec [1; 2; 2; 3] v)) as M.
  destruct (Ensemble.majority Nat.eq_dec (nodup Nat.eq_dec) [1; 2; 2; 3]) as [w|].
  - destruct M as (_ & _ & U). f_equal. apply U.
    intros v Hv.
    change (count_occ Nat.eq_dec [1; 2; 2; 3] 2) with 2. unfold count_occ.
    destruct (Nat.eq_dec 1 v), (Nat.eq_dec 2 v), (Nat.eq_dec 3 v); lia.
  - discriminate M.
Defined.

Lemma to_categorical_one_hot_witness :
  exists out,
    Util.to_categorical (A := Q) (NDArray [3; 1] [0; 2; 1]%Z) (Some 3) = Ok out /\
    shape out = [3; 3].
Proof.
  destruct (@to_categorical_one_hot Q _ (NDArray [3; 1] [0; 2; 1]%Z) (Some 3) 3)
    as (out & E & S & _).
  - reflexivity.
  - reflexivity.
  - intros [|[|[|i]]] Hi; cbn; try discriminate. cbn in Hi. lia.
  - exists out. split; [ exact E | exact S ].
Defined.

Lemma to_categorical_out_of_range_witness :
  Util.to_categorical (A := Q) (NDArray [3] [0; 3; 1]%Z) (Some 3) = Raise IndexError.
Proof.
  apply (@to_categorical_out_of_range Q _ (NDArray [3] [0; 3; 1]%Z) (Some 3) 3 1).
  - reflexivity.
  - reflexivity.
  - simpl; lia.
  - left. simpl. lia.
Defined.

Lemma to_categorical_default_classes_witness :
  exists C out,
    Util.to_categorical (A := Q) (NDArray [3] [0; 2; 1]%Z) None = Ok out /\
    shape out = [3; C].
Proof.
  pose proof (@to_categorical_default_classes Q _ (NDArray [3] [0; 2; 1]%Z)) as T.
  cbn [data] in T. destruct T as (C & out & E & S & _).
  - reflexivity.
  - intros [|[|[|i]]] Hi; cbn; try lia. cbn in Hi. lia.
  - exists C, out. split; [ exact E | exact S ].
Defined.

Lemma Pooling2D_forward_shape_witness :
  exists out,
    snd (MaxPooling2D.forward Sample.pool_2x2 Sample.image_4x4) = Ok out /\
    shape out = [1; 2; 2; 1].
Proof.
  destruct (@Pooling2D_forward_shape Q _ Sample.pool_2x2 Sample.image_4x4 1 4 4 1)
    as (out & X_col & idx & E & S & _); try reflexivity; try (simpl; lia).
  exists out. rewrite E. split; [ reflexivity | exact S ].
Defined.
